(** * AIFileSorter: a shallow embedding of [main.py] and the properties of
    its classification-and-fallback pipeline.

    The script scans the Downloads folder, extracts text from each file,
    asks a zero-shot classifier for a category (content first, then file
    name, then the default label), moves the file under Documents and
    appends one row to a CSV audit log.

    Python [str] values are sequences of Unicode code points; exceptions
    are the instances of [Exception] that [except Exception] catches.  The
    external capabilities (classifier, OCR reader, PDF and DOCX readers,
    the file system primitives) are gathered in one record [Env] of
    answers; the program itself is written in a state-and-exception monad
    over the part of the world the script changes. *)

From Stdlib Require Import List String Ascii NArith PeanoNat Bool Lia.
Import ListNotations.

Set Implicit Arguments.

(** ** Python strings *)

Module PyStr.

Definition codepoint := N.
Definition str := list codepoint.

(** A source literal, character by character. *)
Definition lit (s : string) : str :=
  map N_of_ascii (list_ascii_of_string s).

(** [a == b] *)
Fixpoint str_eqb (a b : str) : bool :=
  match a, b with
  | [], [] => true
  | x :: a', y :: b' => N.eqb x y && str_eqb a' b'
  | _, _ => false
  end.

(** Truth value of a [str] in a condition: non-empty. *)
Definition truthy (s : str) : bool :=
  match s with
  | [] => false
  | _ :: _ => true
  end.

(** [str.isspace] on one code point: the characters [str.strip()] removes. *)
Definition isspace (c : codepoint) : bool :=
  ((9 <=? c) && (c <=? 13) || (28 <=? c) && (c <=? 32)
   || (c =? 133) || (c =? 160) || (c =? 5760)
   || (8192 <=? c) && (c <=? 8202)
   || (c =? 8232) || (c =? 8233) || (c =? 8239) || (c =? 8287)
   || (c =? 12288))%N.

Fixpoint lstrip (s : str) : str :=
  match s with
  | [] => []
  | c :: rest => if isspace c then lstrip rest else s
  end.

Definition rstrip (s : str) : str := rev (lstrip (rev s)).

Definition strip (s : str) : str := rstrip (lstrip s).

(** [sep.join(parts)] *)
Fixpoint join (sep : str) (parts : list str) : str :=
  match parts with
  | [] => []
  | [p] => p
  | p :: rest => p ++ sep ++ join sep rest
  end.

(** [text[:n]] *)
Definition prefix (n : nat) (text : str) : str := firstn n text.

Definition newline : str := [10%N].

Arguments prefix : simpl never.

End PyStr.
Import PyStr.

(** ** pathlib, POSIX flavour

    A path is kept in its string form.  Only what the script uses is
    modelled: the [/] operator, [name], [suffix] and [stem]. *)

Module PathLib.

Definition Path := str.

Definition path_str (p : Path) : str := p.

Definition slash : codepoint := 47%N.
Definition dot : codepoint := 46%N.

Definition ends_with_slash (p : Path) : bool :=
  match rev p with
  | c :: _ => N.eqb c slash
  | [] => false
  end.

(** [base / segment]: an absolute segment replaces the base, an empty one
    leaves it unchanged. *)
Definition joinpath (base : Path) (segment : str) : Path :=
  match segment with
  | [] => base
  | c :: _ =>
      if N.eqb c slash then segment
      else if ends_with_slash base then base ++ segment
      else base ++ [slash] ++ segment
  end.

Fixpoint take_until (c : codepoint) (s : str) : str :=
  match s with
  | [] => []
  | x :: rest => if N.eqb x c then [] else x :: take_until c rest
  end.

(** Final path component. *)
Definition name (p : Path) : str := rev (take_until slash (rev p)).

(** Position of the first [c] in [s]. *)
Fixpoint find_char (c : codepoint) (s : str) : option nat :=
  match s with
  | [] => None
  | x :: rest =>
      if N.eqb x c then Some 0
      else option_map S (find_char c rest)
  end.

(** Distance from the end of [name p] of its last dot, when that dot is
    neither the first nor the last character of the name. *)
Definition suffix_split (p : Path) : option nat :=
  match find_char dot (rev (name p)) with
  | Some j =>
      if (0 <? j) && (S j <? List.length (name p)) then Some j else None
  | None => None
  end.

Definition suffix (p : Path) : str :=
  match suffix_split p with
  | Some j => rev (firstn (S j) (rev (name p)))
  | None => []
  end.

Definition stem (p : Path) : str :=
  match suffix_split p with
  | Some j => rev (skipn (S j) (rev (name p)))
  | None => name p
  end.

End PathLib.
Import PathLib.

(** ** Configuration *)

(** Line 20 of the script.  The first two literals stand next to each
    other without a comma, so Python concatenates them. *)
Definition CATEGORIES : list str :=
  [ lit "IT" ++ lit "IT/Jens"; lit "Math"; lit "History"; lit "Coding";
    lit "Finacial Literacy"; lit "College Prep"; lit "English"; lit "Other" ].

(** ** Exceptions and outcomes *)

(** An exception, with the message [str(e)] that the handlers print. *)
Inductive exn : Type :=
| Exception (message : str).

Definition exn_str (e : exn) : str :=
  match e with Exception m => m end.

Inductive outcome (A : Type) : Type :=
| Ok (value : A)
| Raise (e : exn).

Arguments Ok {A} value.
Arguments Raise {A} e.

(** ** The part of the world the script changes *)

(** One CSV row, field by field (the quoting done by [csv.writer] is not
    modelled). *)
Definition row := list str.

Record World : Type := mkWorld {
  stdout : list str;                         (* payload of every print, oldest first *)
  classifier_calls : list (str * list str);  (* arguments of every classifier call *)
  log_file : option (list row);              (* LOG_FILE: None while it does not exist *)
  relocated : list (Path * Path);            (* every completed shutil.move: the source, and where the file now is *)
  clock_reads : nat                          (* how often datetime.now() was read *)
}.

Definition with_stdout (w : World) (out : list str) : World :=
  mkWorld out (classifier_calls w) (log_file w) (relocated w) (clock_reads w).

Definition with_classifier_calls (w : World) (calls : list (str * list str)) : World :=
  mkWorld (stdout w) calls (log_file w) (relocated w) (clock_reads w).

Definition with_log_file (w : World) (f : option (list row)) : World :=
  mkWorld (stdout w) (classifier_calls w) f (relocated w) (clock_reads w).

Definition with_relocated (w : World) (r : list (Path * Path)) : World :=
  mkWorld (stdout w) (classifier_calls w) (log_file w) r (clock_reads w).

Definition with_clock_reads (w : World) (n : nat) : World :=
  mkWorld (stdout w) (classifier_calls w) (log_file w) (relocated w) n.

(** Rows of the audit log; an absent file has none. *)
Definition log_rows (w : World) : list row :=
  match log_file w with
  | Some rows => rows
  | None => []
  end.

(** ** State and exception monad

    A raised exception keeps the effects made before it, as in Python. *)

Definition M (A : Type) : Type := World -> outcome A * World.

Definition ret {A} (a : A) : M A := fun w => (Ok a, w).

Definition raise {A} (e : exn) : M A := fun w => (Raise e, w).

Definition bind {A B} (m : M A) (k : A -> M B) : M B :=
  fun w =>
    match m w with
    | (Ok a, w') => k a w'
    | (Raise e, w') => (Raise e, w')
    end.

(** [try: body  except Exception as e: handler e] *)
Definition try_except {A} (body : M A) (handler : exn -> M A) : M A :=
  fun w =>
    match body w with
    | (Ok a, w') => (Ok a, w')
    | (Raise e, w') => handler e w'
    end.

(** The answer of an external call that leaves the world alone. *)
Definition call {A} (r : outcome A) : M A := fun w => (r, w).

Declare Scope py_scope.
Delimit Scope py_scope with py.
Notation "x <- m ;; k" := (bind m (fun x => k))
  (at level 100, m at next level, right associativity) : py_scope.
Notation "m ;; k" := (bind m (fun _ => k))
  (at level 100, right associativity) : py_scope.
Open Scope py_scope.

(** [for x in xs: body x] *)
Fixpoint for_each {A} (xs : list A) (body : A -> M unit) : M unit :=
  match xs with
  | [] => ret tt
  | x :: rest => body x ;; for_each rest body
  end.

(** A generator expression consumed in order: the first raise ends it. *)
Fixpoint collect {A} (rs : list (outcome A)) : outcome (list A) :=
  match rs with
  | [] => Ok []
  | Ok a :: rest =>
      match collect rest with
      | Ok l => Ok (a :: l)
      | Raise e => Raise e
      end
  | Raise e :: _ => Raise e
  end.

Definition print (msg : str) : M unit :=
  fun w => (Ok tt, with_stdout w (stdout w ++ [msg])).

(** ** External capabilities *)

(** What the zero-shot pipeline returns for one sequence: the input and
    the candidate labels ordered by decreasing score (the scores
    themselves are never read by the script). *)
Record ZeroShot : Type := mkZeroShot {
  zs_sequence : str;
  zs_labels : list str
}.

(** A raster image as handed to the OCR reader. *)
Definition Image := list N.

Inductive OcrSource : Type :=
| FromArray (img_np : Image)   (* reader.readtext(img_np, detail=0) *)
| FromFile (path : str).       (* reader.readtext(str(file_path), detail=0) *)

(** A page of an opened PDF: its text layer, and its 300 dpi rendering
    converted to an RGB array (get_pixmap, tobytes, Image.open, convert,
    np.array); either may raise. *)
Record PdfPage : Type := mkPdfPage {
  get_text : outcome str;
  pixmap_array : outcome Image
}.

Record PdfDoc : Type := mkPdfDoc {
  pdf_pages : list PdfPage
}.

Record Env : Type := mkEnv {
  home : Path;                                           (* Path.home() *)
  lower : str -> str;                                    (* str.lower *)
  classifier : str -> list str -> outcome ZeroShot;      (* transformers pipeline *)
  readtext : OcrSource -> outcome (list str);            (* easyocr reader *)
  read_text : Path -> outcome str;                       (* Path.read_text(errors='ignore') *)
  fitz_open : Path -> outcome PdfDoc;                    (* fitz.open *)
  docx_paragraphs : Path -> outcome (list str);          (* [p.text for p in Document(path).paragraphs] *)
  path_exists : Path -> outcome bool;                    (* Path.exists *)
  st_size : Path -> outcome N;                           (* Path.stat().st_size *)
  iterdir : Path -> outcome (list Path);                 (* Path.iterdir *)
  is_file : Path -> bool;                                (* Path.is_file *)
  mkdir_fault : World -> Path -> option exn;             (* mkdir(parents=True, exist_ok=True) *)
  move_fault : World -> Path -> Path -> option exn;      (* shutil.move raising *)
  log_create_fault : World -> option exn;                (* open(LOG_FILE, 'w') *)
  log_append_fault : World -> option exn;                (* open(LOG_FILE, 'a') raising *)
  now_isoformat : nat -> str;                            (* datetime.now().isoformat(), per reading *)
  target_is_dir : World -> Path -> bool;                 (* os.path.isdir(target), as shutil.move asks *)
  header_write_fault : World -> option exn               (* writing the header row into the new log and closing it *)
}.

(** A step that either raises the fault the environment answers with, or
    applies its effect. *)
Definition guarded (fault : World -> option exn) (effect : World -> World) : M unit :=
  fun w =>
    match fault w with
    | Some e => (Raise e, w)
    | None => (Ok tt, effect w)
    end.

Section Script.

Variable E : Env.

(** *** Configuration (lines 16-18) *)

Definition DOWNLOADS : Path := joinpath (home E) (lit "Downloads").
Definition DOCUMENTS : Path := joinpath (home E) (lit "Documents").
Definition LOG_FILE : Path := joinpath DOCUMENTS (lit "ai_file_sort_log.csv").

(** *** OCR helper (lines 31-47) *)

(** [doc.load_page(page_num)] followed by the rendering of the page. *)
Definition load_page_array (doc : PdfDoc) (page_num : nat) : outcome Image :=
  match nth_error (pdf_pages doc) page_num with
  | Some page => pixmap_array page
  | None => Raise (Exception (lit "page not in document"))
  end.

Fixpoint ocr_pdf_pages (doc : PdfDoc) (page_nums : list nat) (text_output : list str)
  : M (list str) :=
  match page_nums with
  | [] => ret text_output
  | page_num :: rest =>
      img_np <- call (load_page_array doc page_num) ;;
      result <- call (readtext E (FromArray img_np)) ;;
      ocr_pdf_pages doc rest (text_output ++ [join newline result])
  end.

Definition ocr_pdf (file_path : Path) : M str :=
  try_except
    (doc <- call (fitz_open E file_path) ;;
     text_output <- ocr_pdf_pages doc (seq 0 (List.length (pdf_pages doc))) [] ;;
     ret (join (newline ++ newline) text_output))
    (fun e =>
       print (lit "[!] OCR failed for " ++ name file_path ++ lit ": " ++ exn_str e) ;;
       ret []).

(** *** Text extraction (lines 49-81) *)

Definition image_suffixes : list str :=
  [lit ".png"; lit ".jpg"; lit ".jpeg"; lit ".gif"; lit ".bmp"].

Definition in_strs (s : str) (l : list str) : bool := existsb (str_eqb s) l.

(** The body of the [try] block. *)
Definition extract_body (file_path : Path) (ext : str) : M str :=
  if str_eqb ext (lit ".txt") then
    call (read_text E file_path)
  else if str_eqb ext (lit ".pdf") then
    doc <- call (fitz_open E file_path) ;;
    page_texts <- call (collect (map get_text (pdf_pages doc))) ;;
    let text := join newline page_texts in
    if truthy (strip text) then ret text
    else
      print (lit "No text found in PDF, running OCR...") ;;
      ocr_pdf file_path
  else if str_eqb ext (lit ".docx") then
    paragraphs <- call (docx_paragraphs E file_path) ;;
    ret (join newline paragraphs)
  else if in_strs ext image_suffixes then
    print (lit "Running OCR on image: " ++ name file_path) ;;
    present <- call (path_exists E file_path) ;;
    empty_or_missing <-
      (if negb present then ret true
       else size <- call (st_size E file_path) ;; ret (N.eqb size 0)) ;;
    if empty_or_missing then
      print (lit "[!] Image file is empty or missing: " ++ path_str file_path) ;;
      ret []
    else
      result <- call (readtext E (FromFile (path_str file_path))) ;;
      ret (join newline result)
  else
    print (lit "Unsupported file type: " ++ name file_path) ;;
    ret [].

Definition extract_text_from_file (file_path : Path) : M str :=
  let ext := lower E (suffix file_path) in
  try_except
    (extract_body file_path ext)
    (fun e =>
       print (lit "[!] Error reading " ++ name file_path ++ lit ": " ++ exn_str e) ;;
       ret []).

(** *** Classification (lines 84-86) *)

(** Every call of the classifier is noted with its arguments, so that the
    properties can speak of what the classifier was asked. *)
Definition record_call (text : str) (labels : list str) : M unit :=
  fun w => (Ok tt, with_classifier_calls w (classifier_calls w ++ [(text, labels)])).

Definition classify_text (text : str) : M str :=
  record_call (prefix 1000 text) CATEGORIES ;;
  result <- call (classifier E (prefix 1000 text) CATEGORIES) ;;
  match zs_labels result with
  | top :: _ => ret top
  | [] => raise (Exception (lit "list index out of range"))
  end.

(** *** Fallback controller (lines 116-135) *)

Definition DEFAULT_CATEGORY : str := lit "Other".

Definition content_banner (category : str) : str :=
  lit "AI classified from content: " ++ category.

Definition fallback_banner : str :=
  lit "Falling back to filename-based classification...".

Definition filename_banner (category : str) : str :=
  lit "AI classified from filename: " ++ category.

(** [not category] for a variable that holds [None] or a [str]. *)
Definition unset (category : option str) : bool :=
  match category with
  | None => true
  | Some c => negb (truthy c)
  end.

Definition choose_category (file_path : Path) (text : str) : M str :=
  category <-
    (if truthy (strip text) then
       try_except
         (category <- classify_text text ;;
          print (content_banner category) ;;
          ret (Some category))
         (fun e =>
            print (lit "[!] Text classification failed: " ++ exn_str e) ;;
            ret None)
     else
       print (lit "[-] No readable text found.") ;;
       ret None) ;;
  if unset category then
    print fallback_banner ;;
    try_except
      (category <- classify_text (stem file_path) ;;
       print (filename_banner category) ;;
       ret category)
      (fun e =>
         print (lit "[!] Filename classification failed: " ++ exn_str e) ;;
         ret DEFAULT_CATEGORY)
  else
    ret (match category with Some c => c | None => [] end).

(** *** Relocation (lines 89-100) *)

Definition arrow : str := [8594%N].

Definition mkdir (destination : Path) : M unit :=
  guarded (fun w => mkdir_fault E w destination) (fun w => w).

(** Where [shutil.move(src, target)] puts the file: inside [target], under
    the file's own name, when [target] is an existing directory; at [target]
    otherwise. *)
Definition landing (w : World) (src target : Path) : Path :=
  if target_is_dir E w target then joinpath target (name src) else target.

Definition shutil_move (src target : Path) : M unit :=
  guarded (fun w => move_fault E w src target)
          (fun w => with_relocated w (relocated w ++ [(src, landing w src target)])).

Definition move_file (file_path : Path) (category : str) : M (option str) :=
  let destination := joinpath DOCUMENTS category in
  mkdir destination ;;
  let target := joinpath destination (name file_path) in
  try_except
    (shutil_move file_path target ;;
     print (lit "Moved '" ++ name file_path ++ lit "' " ++ arrow ++ lit " " ++ category) ;;
     ret (Some (path_str target)))
    (fun e =>
       print (lit "[!] Error moving " ++ name file_path ++ lit ": " ++ exn_str e) ;;
       ret None).

(** *** Audit log (lines 103-106 and 145-148) *)

Definition HEADER : row :=
  [lit "timestamp"; lit "file_name"; lit "category"; lit "new_path"].

(** [open(LOG_FILE, mode='a')]: creates the file when it is absent. *)
Definition open_append : M unit :=
  guarded (log_append_fault E) (fun w => with_log_file w (Some (log_rows w))).

(** [open(LOG_FILE, mode='w')]: creates or truncates the file. *)
Definition open_write : M unit :=
  guarded (log_create_fault E) (fun w => with_log_file w (Some [])).

Definition writerow (r : row) : M unit :=
  fun w => (Ok tt, with_log_file w (Some (log_rows w ++ [r]))).

Definition datetime_now_isoformat : M str :=
  fun w => (Ok (now_isoformat E (clock_reads w)), with_clock_reads w (S (clock_reads w))).

Definition log_action (file_name category new_path : str) : M unit :=
  open_append ;;
  timestamp <- datetime_now_isoformat ;;
  writerow [timestamp; file_name; category; new_path].

Definition log_file_exists : M bool :=
  fun w => (Ok (match log_file w with Some _ => true | None => false end), w).

(** [writer.writerow(header)] and the closing of the new file: when this
    raises, the file that [open] has created stays, without the row. *)
Definition write_header : M unit :=
  guarded (header_write_fault E)
          (fun w => with_log_file w (Some (log_rows w ++ [HEADER]))).

Definition init_log_file : M unit :=
  present <- log_file_exists ;;
  if negb present then
    open_write ;;
    write_header
  else ret tt.

(** *** Main loop (lines 109-141) *)

(** Body of the loop for one regular file. *)
Definition process_file (file_path : Path) : M unit :=
  print (newline ++ arrow ++ lit " Processing: " ++ name file_path) ;;
  text <- extract_text_from_file file_path ;;
  category <- choose_category file_path text ;;
  new_path <- move_file file_path category ;;
  match new_path with
  | Some p => if truthy p then log_action (name file_path) category p else ret tt
  | None => ret tt
  end.

Definition loop_body (file_path : Path) : M unit :=
  if is_file E file_path then process_file file_path else ret tt.

Definition process_downloads : M unit :=
  print (newline ++ lit "Scanning: " ++ path_str DOWNLOADS) ;;
  entries <- call (iterdir E DOWNLOADS) ;;
  for_each entries loop_body ;;
  print (newline ++ lit "Done. Log saved to: " ++ path_str LOG_FILE).

(** The script from top to bottom: models loaded (lines 22-28), log
    initialised (lines 145-148), then the run (lines 151-152). *)
Definition main : M unit :=
  print (lit "Loading classification model...") ;;
  print (lit "Models ready.") ;;
  init_log_file ;;
  process_downloads.

End Script.

(** ** Vocabulary of the properties *)

(** What [classify_text] makes of the classifier's answer. *)
Definition top_label (answer : outcome ZeroShot) : outcome str :=
  match answer with
  | Ok result =>
      match zs_labels result with
      | top :: _ => Ok top
      | [] => Raise (Exception (lit "list index out of range"))
      end
  | Raise e => Raise e
  end.

(** The zero-shot capability ranks the candidate labels it was given: every
    label of an answer is one of the candidates. *)
Definition ranks_candidates (E : Env) : Prop :=
  forall text labels result,
    classifier E text labels = Ok result -> incl (zs_labels result) labels.

(** Lines printed, and classifier calls made, between two worlds. *)
Definition printed_since (w w' : World) : list str :=
  skipn (List.length (stdout w)) (stdout w').

Definition calls_since (w w' : World) : list (str * list str) :=
  skipn (List.length (classifier_calls w)) (classifier_calls w').

(** The filename tier announces itself on the console before it calls the
    classifier. *)
Definition filename_tier_ran (w w' : World) : Prop :=
  In fallback_banner (printed_since w w').

(** The eight formats the extractor dispatches on. *)
Definition supported_suffixes : list str :=
  [lit ".txt"; lit ".pdf"; lit ".docx"] ++ image_suffixes.

(** Fragments of one page as the OCR helper obtains them. *)
Definition page_fragments (E : Env) (page : PdfPage) : outcome (list str) :=
  match pixmap_array page with
  | Ok img_np => readtext E (FromArray img_np)
  | Raise e => Raise e
  end.

(** Rows and relocations added between two worlds. *)
Definition rows_since (w w' : World) : list row :=
  skipn (List.length (log_rows w)) (log_rows w').

Definition moves_since (w w' : World) : list (Path * Path) :=
  skipn (List.length (relocated w)) (relocated w').

(** Lines 113-135 for one file: announce, extract, choose. *)
Definition categorise (E : Env) (file_path : Path) : M str :=
  print (newline ++ arrow ++ lit " Processing: " ++ name file_path) ;;
  text <- extract_text_from_file E file_path ;;
  choose_category E file_path text.

(** Lines 128-135 once [not category] holds: the filename tier followed by
    the default tier. *)
Definition filename_tier (E : Env) (file_path : Path) : M str :=
  print fallback_banner ;;
  try_except
    (category <- classify_text E (stem file_path) ;;
     print (filename_banner category) ;;
     ret category)
    (fun e =>
       print (lit "[!] Filename classification failed: " ++ exn_str e) ;;
       ret DEFAULT_CATEGORY).

(** Nothing happened to the audit log, the moved files or the clock. *)
Definition same_files (w w' : World) : Prop :=
  log_file w' = log_file w
  /\ relocated w' = relocated w
  /\ clock_reads w' = clock_reads w.

(** A computation that only prints and calls the classifier. *)
Definition quiet (A : Type) (m : M A) : Prop :=
  forall w, same_files w (snd (m w)).

(** A row that reports the move [mv]: it names the file moved and, as new
    path, the target under Documents handed to the move; the file is at
    that path, or inside it when a directory was already there. *)
Definition reports (E : Env) (mv : Path * Path) (r : row) : Prop :=
  exists timestamp category,
    let target :=
      joinpath (joinpath (DOCUMENTS E) category) (name (fst mv)) in
    r = [timestamp; name (fst mv); category; path_str target]
    /\ (snd mv = target \/ snd mv = joinpath target (name (fst mv))).

(** Between [w] and [w'] the log was only appended to, and every appended
    row reports one of the moves completed in between. *)
Definition logged_moves (E : Env) (w w' : World) : Prop :=
  exists rows moves,
    log_rows w' = log_rows w ++ rows
    /\ relocated w' = relocated w ++ moves
    /\ Forall (fun r => exists mv, In mv moves /\ reports E mv r) rows
    /\ (log_file w <> None -> log_file w' <> None).


(** ** Sample environments *)

Module Sample.

Definition ascii_lower (s : str) : str :=
  map (fun c => if ((65 <=? c) && (c <=? 90))%N then (c + 32)%N else c) s.

(** A classifier that ranks the second candidate first, and refuses the
    empty sequence. *)
Definition second_first (text : str) (labels : list str) : outcome ZeroShot :=
  match text with
  | [] => Raise (Exception (lit "empty sequence"))
  | _ :: _ =>
      Ok (mkZeroShot text
            match labels with
            | a :: b :: rest => b :: a :: rest
            | _ => labels
            end)
  end.

Definition unavailable (text : str) (labels : list str) : outcome ZeroShot :=
  Raise (Exception (lit "model unavailable")).

Definition scanned_page : PdfPage :=
  mkPdfPage (Ok []) (Ok [1%N; 2%N; 3%N]).

Definition no_fault : World -> option exn := fun _ => None.

Definition locked : World -> option exn :=
  fun _ => Some (Exception (lit "Permission denied")).

Definition env (clf : str -> list str -> outcome ZeroShot)
  (move_f : World -> Path -> Path -> option exn)
  (create_f append_f : World -> option exn) : Env :=
  mkEnv (lit "/home/u") ascii_lower clf
    (fun _ => Ok [lit "line one"; lit "line two"])
    (fun _ => Ok (lit "Solving quadratic equations and derivatives"))
    (fun _ => Ok (mkPdfDoc [scanned_page; scanned_page]))
    (fun _ => Ok [lit "First paragraph"; lit "Second paragraph"])
    (fun _ => Ok true)
    (fun _ => Ok 12%N)
    (fun _ => Ok [lit "/home/u/Downloads/algebra_notes.txt";
                  lit "/home/u/Downloads/archive.zip"])
    (fun _ => true)
    (fun _ _ => None)
    move_f create_f append_f
    (fun n => lit "2024-05-01T10:00:0" ++ [(48 + N.of_nat n)%N])
    (fun _ _ => false)
    no_fault.

Definition calm : Env := env second_first (fun _ _ _ => None) no_fault no_fault.
Definition model_down : Env := env unavailable (fun _ _ _ => None) no_fault no_fault.
Definition log_locked : Env := env second_first (fun _ _ _ => None) no_fault locked.
Definition move_denied : Env :=
  env second_first (fun _ _ _ => Some (Exception (lit "Access is denied"))) no_fault no_fault.

(** The same environment with another file reader, or another OCR reader. *)
Definition with_read_text (E : Env) (reader : Path -> outcome str) : Env :=
  mkEnv (home E) (lower E) (classifier E) (readtext E) reader (fitz_open E)
    (docx_paragraphs E) (path_exists E) (st_size E) (iterdir E) (is_file E)
    (mkdir_fault E) (move_fault E) (log_create_fault E) (log_append_fault E)
    (now_isoformat E) (target_is_dir E) (header_write_fault E).

Definition with_readtext (E : Env) (ocr : OcrSource -> outcome (list str)) : Env :=
  mkEnv (home E) (lower E) (classifier E) ocr (read_text E) (fitz_open E)
    (docx_paragraphs E) (path_exists E) (st_size E) (iterdir E) (is_file E)
    (mkdir_fault E) (move_fault E) (log_create_fault E) (log_append_fault E)
    (now_isoformat E) (target_is_dir E) (header_write_fault E).

Definition unreadable : Env :=
  with_read_text calm (fun _ => Raise (Exception (lit "Permission denied"))).

Definition ocr_broken : Env :=
  with_readtext calm (fun _ => Raise (Exception (lit "decode error"))).

Definition notes : Path := lit "/home/u/Downloads/algebra_notes.txt".
Definition archive : Path := lit "/home/u/Downloads/archive.zip".
Definition scan : Path := lit "/home/u/Downloads/scan.pdf".

Definition fresh : World := mkWorld [] [] None [] 0.

End Sample.

(** A text layout that puts a blank line between the fragments of a page as
    well as between pages; it is compared with what [ocr_pdf] returns. *)
Definition blank_line : str := newline ++ newline.

Definition blank_line_layout (fragments : list (list str)) : str :=
  join blank_line (map (join blank_line) fragments).

(** What [ocr_pdf] builds: one line per fragment, one blank line between
    pages. *)
Definition page_layout (fragments : list (list str)) : str :=
  join blank_line (map (join newline) fragments).

(** ** Further vocabulary: whole runs and single formats *)

Definition nonspace (c : codepoint) : bool := negb (isspace c).

(** A classifier call as [classify_text] makes it. *)
Definition bounded_call (c : str * list str) : Prop :=
  List.length (fst c) <= 1000 /\ snd c = CATEGORIES.

(** Between [w] and [w'] the classifier was only asked bounded calls. *)
Definition calls_bounded (w w' : World) : Prop :=
  exists calls,
    classifier_calls w' = classifier_calls w ++ calls
    /\ Forall bounded_call calls.

(** The classifier was not asked anything between [w] and [w']. *)
Definition same_calls (w w' : World) : Prop :=
  classifier_calls w' = classifier_calls w.

(** A computation all of whose runs relate the world before to the world
    after. *)
Definition keeps (R : World -> World -> Prop) (A : Type) (m : M A) : Prop :=
  forall w, R w (snd (m w)).

(** Creating a folder and appending to the log always go through (a move
    may still fail). *)
Definition soft_faults_only (E : Env) : Prop :=
  (forall w p, mkdir_fault E w p = None)
  /\ (forall w, log_append_fault E w = None).

Definition moves_never_fail (E : Env) : Prop :=
  forall w src target, move_fault E w src target = None.

(** [s] occurs in [text] as a contiguous piece. *)
Definition occurs_in (s text : str) : Prop :=
  exists before after, text = before ++ s ++ after.

(** The second field of a log row. *)
Definition row_file_name (r : row) : str := nth 1 r [].

(** The last field of a log row. *)
Definition row_new_path (r : row) : str := nth 3 r [].



Module Scenario.

Definition with_target_is_dir (E : Env) (taken : World -> Path -> bool) : Env :=
  mkEnv (home E) (lower E) (classifier E) (readtext E) (read_text E) (fitz_open E)
    (docx_paragraphs E) (path_exists E) (st_size E) (iterdir E) (is_file E)
    (mkdir_fault E) (move_fault E) (log_create_fault E) (log_append_fault E)
    (now_isoformat E) taken (header_write_fault E).

Definition with_header_write_fault (E : Env) (fault : World -> option exn) : Env :=
  mkEnv (home E) (lower E) (classifier E) (readtext E) (read_text E) (fitz_open E)
    (docx_paragraphs E) (path_exists E) (st_size E) (iterdir E) (is_file E)
    (mkdir_fault E) (move_fault E) (log_create_fault E) (log_append_fault E)
    (now_isoformat E) (target_is_dir E) fault.

(** A folder named algebra_notes.txt already sits in Documents/Math. *)
Definition name_taken_by_folder : Env :=
  with_target_is_dir Sample.calm
    (fun _ target => str_eqb target (lit "/home/u/Documents/Math/algebra_notes.txt")).

(** The new log can be opened, but its header row cannot be written. *)
Definition header_unwritable : Env :=
  with_header_write_fault Sample.calm
    (fun _ => Some (Exception (lit "No space left on device"))).

Definition with_mkdir_fault (E : Env) (fault : World -> Path -> option exn) : Env :=
  mkEnv (home E) (lower E) (classifier E) (readtext E) (read_text E) (fitz_open E)
    (docx_paragraphs E) (path_exists E) (st_size E) (iterdir E) (is_file E)
    fault (move_fault E) (log_create_fault E) (log_append_fault E)
    (now_isoformat E) (target_is_dir E) (header_write_fault E).

Definition with_fitz_open (E : Env) (opener : Path -> outcome PdfDoc) : Env :=
  mkEnv (home E) (lower E) (classifier E) (readtext E) (read_text E) opener
    (docx_paragraphs E) (path_exists E) (st_size E) (iterdir E) (is_file E)
    (mkdir_fault E) (move_fault E) (log_create_fault E) (log_append_fault E)
    (now_isoformat E) (target_is_dir E) (header_write_fault E).

Definition with_st_size (E : Env) (size : Path -> outcome N) : Env :=
  mkEnv (home E) (lower E) (classifier E) (readtext E) (read_text E) (fitz_open E)
    (docx_paragraphs E) (path_exists E) size (iterdir E) (is_file E)
    (mkdir_fault E) (move_fault E) (log_create_fault E) (log_append_fault E)
    (now_isoformat E) (target_is_dir E) (header_write_fault E).

Definition with_listing (E : Env) (listing : Path -> outcome (list Path))
  (regular : Path -> bool) : Env :=
  mkEnv (home E) (lower E) (classifier E) (readtext E) (read_text E) (fitz_open E)
    (docx_paragraphs E) (path_exists E) (st_size E) listing regular
    (mkdir_fault E) (move_fault E) (log_create_fault E) (log_append_fault E)
    (now_isoformat E) (target_is_dir E) (header_write_fault E).

(** Documents cannot be written to: no category folder can be made. *)
Definition folder_denied : Env :=
  with_mkdir_fault Sample.calm
    (fun _ _ => Some (Exception (lit "Permission denied"))).

(** The log cannot be created at start. *)
Definition create_denied : Env :=
  Sample.env Sample.second_first (fun _ _ _ => None) Sample.locked Sample.no_fault.

(** Downloads cannot be listed. *)
Definition no_downloads : Env :=
  with_listing Sample.calm
    (fun _ => Raise (Exception (lit "No such file or directory")))
    (fun _ => true).

(** Downloads holds a folder between two files. *)
Definition papers : Path := lit "/home/u/Downloads/papers".
Definition picture : Path := lit "/home/u/Downloads/photo.PNG".
Definition report : Path := lit "/home/u/Downloads/report.pdf".

Definition with_folder : Env :=
  with_listing Sample.calm
    (fun _ => Ok [Sample.notes; papers; Sample.archive])
    (fun p => negb (str_eqb p papers)).

(** PDFs with a text layer. *)
Definition typed_page (text : str) : PdfPage :=
  mkPdfPage (Ok text) (Ok [7%N]).

Definition typed_pdf : Env :=
  with_fitz_open Sample.calm
    (fun _ => Ok (mkPdfDoc [typed_page (lit "Chapter 1"); typed_page (lit "Limits")])).

(** PDFs without a single page. *)
Definition empty_pdf : Env :=
  with_fitz_open Sample.calm (fun _ => Ok (mkPdfDoc [])).

(** Zero-byte images. *)
Definition empty_images : Env := with_st_size Sample.calm (fun _ => Ok 0%N).

End Scenario.

(** * Properties *)

(** ** Strings and lists *)

Example suffix_of_notes : suffix Sample.notes = lit ".txt".
Proof. reflexivity. Qed.

Example stem_of_notes : stem Sample.notes = lit "algebra_notes".
Proof. reflexivity. Qed.

Example stem_of_dotfile : stem (lit "/home/u/Downloads/.bashrc") = lit ".bashrc".
Proof. reflexivity. Qed.

Example strip_blanks : strip (lit "  a b  ") = lit "a b".
Proof. reflexivity. Qed.

Example strip_only_blanks : truthy (strip (lit "   ")) = false.
Proof. reflexivity. Qed.

Example join_lines : join newline [lit "a"; lit "b"; lit "c"] = lit "a" ++ newline ++ lit "b" ++ newline ++ lit "c".
Proof. reflexivity. Qed.

Lemma skipn_length_app (A : Type) (l extra : list A) :
  skipn (List.length l) (l ++ extra) = extra.
Proof.
  induction l as [| x l IH]; simpl; auto.
Qed.

Lemma str_eqb_eq (a b : str) : str_eqb a b = true <-> a = b.
Proof.
  revert b. induction a as [| x a IH]; intros [| y b]; simpl;
    try (split; [discriminate | discriminate]); [tauto |].
  rewrite andb_true_iff, N.eqb_eq, IH. split.
  - intros [Hx Ha]. now subst.
  - intros H. inversion H. auto.
Qed.

Lemma str_eqb_neq (a b : str) : a <> b -> str_eqb a b = false.
Proof.
  intros H. destruct (str_eqb a b) eqn:Heq; [| reflexivity].
  apply str_eqb_eq in Heq. contradiction.
Qed.

Lemma in_strs_In (s : str) (l : list str) : in_strs s l = true <-> In s l.
Proof.
  unfold in_strs. rewrite existsb_exists. split.
  - intros [x [Hin Heq]]. apply str_eqb_eq in Heq. now subst.
  - intros Hin. exists s. split; [assumption | now apply str_eqb_eq].
Qed.

Lemma prefix_length (n : nat) (text : str) : List.length (prefix n text) <= n.
Proof. unfold prefix. apply firstn_le_length. Qed.

Lemma prefix_is_prefix (n : nat) (text : str) :
  text = prefix n text ++ skipn n text.
Proof. unfold prefix. symmetry. apply firstn_skipn. Qed.

Lemma prefix_short (n : nat) (text : str) :
  List.length text <= n -> prefix n text = text.
Proof. unfold prefix. apply firstn_all2. Qed.

Lemma categories_truthy (label : str) : In label CATEGORIES -> truthy label = true.
Proof.
  unfold CATEGORIES. simpl.
  intros H. repeat (destruct H as [H | H]; [subst; reflexivity |]). contradiction.
Qed.

(** ** The monad *)

Ltac run :=
  cbv beta iota zeta delta
    [bind try_except ret raise call print record_call guarded fst snd] in *.

Lemma bind_ok (A B : Type) (m : M A) (k : A -> M B) w a w' :
  m w = (Ok a, w') -> bind m k w = k a w'.
Proof. intros H. unfold bind. now rewrite H. Qed.

Lemma bind_raise (A B : Type) (m : M A) (k : A -> M B) w e w' :
  m w = (Raise e, w') -> bind m k w = (Raise e, w').
Proof. intros H. unfold bind. now rewrite H. Qed.

Lemma try_except_total (A : Type) (body : M A) (handler : exn -> M A) w :
  (forall e w1, exists a w2, handler e w1 = (Ok a, w2)) ->
  exists a w2, try_except body handler w = (Ok a, w2).
Proof.
  intros Hh. unfold try_except.
  destruct (body w) as [[a | e] w1]; eauto.
Qed.

Lemma for_each_app (A : Type) (pre post : list A) (body : A -> M unit) w w1 :
  for_each pre body w = (Ok tt, w1) ->
  for_each (pre ++ post) body w = for_each post body w1.
Proof.
  revert w. induction pre as [| x pre IH]; intros w H; simpl in *.
  - unfold ret in H. now inversion H.
  - unfold bind in *. destruct (body x w) as [[[] | e] w2]; [auto | discriminate].
Qed.

(** ** Classification *)

Lemma classify_text_run (E : Env) (text : str) (w : World) :
  classify_text E text w =
  (top_label (classifier E (prefix 1000 text) CATEGORIES),
   with_classifier_calls w
     (classifier_calls w ++ [(prefix 1000 text, CATEGORIES)])).
Proof.
  unfold classify_text, top_label. run.
  destruct (classifier E (prefix 1000 text) CATEGORIES) as [result | e];
    [destruct (zs_labels result) |]; reflexivity.
Qed.

(** The answer does not depend on the world the call is made in. *)
Lemma classify_text_answer (E : Env) (text : str) (w w1 : World) :
  fst (classify_text E text w) = fst (classify_text E text w1).
Proof. now rewrite !classify_text_run. Qed.

Lemma top_label_candidate (E : Env) (text label : str) :
  ranks_candidates E ->
  top_label (classifier E text CATEGORIES) = Ok label ->
  In label CATEGORIES.
Proof.
  intros Hrank. unfold top_label.
  destruct (classifier E text CATEGORIES) as [result | e] eqn:Hc; [| discriminate].
  destruct (zs_labels result) as [| top rest] eqn:Hl; [discriminate |].
  intros H. inversion H; subst.
  apply (Hrank _ _ _ Hc). rewrite Hl. now left.
Qed.

(** C9. The label list passed to every classification call has exactly
    eight entries; the first is the single label "ITIT/Jens" produced by the
    two adjacent literals, so "IT" is not a label; "Finacial Literacy" is a
    label and "Financial Literacy" is not; the labels are pairwise distinct
    and the default label "Other" is among them. *)
Theorem categories_as_written :
  List.length CATEGORIES = 8
  /\ nth_error CATEGORIES 0 = Some (lit "ITIT/Jens")
  /\ ~ In (lit "IT") CATEGORIES
  /\ In (lit "Finacial Literacy") CATEGORIES
  /\ ~ In (lit "Financial Literacy") CATEGORIES
  /\ NoDup CATEGORIES
  /\ In DEFAULT_CATEGORY CATEGORIES
  /\ (forall E text w,
        calls_since w (snd (classify_text E text w))
        = [(prefix 1000 text, CATEGORIES)]).
Proof.
  assert (Hdec : forall a b : str, {a = b} + {a <> b})
    by (apply list_eq_dec, N.eq_dec).
  repeat split.
  - unfold CATEGORIES. simpl. intros H.
    repeat (destruct H as [H | H]; [discriminate H |]). contradiction.
  - unfold CATEGORIES. simpl. tauto.
  - unfold CATEGORIES. simpl. intros H.
    repeat (destruct H as [H | H]; [discriminate H |]). contradiction.
  - unfold CATEGORIES.
    repeat (constructor;
            [simpl; intros H;
             repeat (destruct H as [H | H]; [discriminate H |]); contradiction |]).
    constructor.
  - unfold CATEGORIES, DEFAULT_CATEGORY. simpl. tauto.
  - intros E text w. rewrite classify_text_run. unfold calls_since. simpl.
    apply skipn_length_app.
Qed.

(** C6. The classifier receives exactly the first 1000 characters of the
    text with the fixed label list: the recorded argument is that prefix, it
    is at most 1000 characters long and a text that short is passed whole;
    two texts that agree on their first 1000 characters lead to the same
    call and the same answer; and the value returned is the first label of
    the ranking the classifier answered with. *)
Theorem classify_text_bounded_prefix (E : Env) (text : str) (w : World) :
  calls_since w (snd (classify_text E text w)) = [(prefix 1000 text, CATEGORIES)]
  /\ List.length (prefix 1000 text) <= 1000
  /\ text = prefix 1000 text ++ skipn 1000 text
  /\ (List.length text <= 1000 -> prefix 1000 text = text)
  /\ (forall other,
        prefix 1000 other = prefix 1000 text ->
        classify_text E other w = classify_text E text w)
  /\ (forall result top rest,
        classifier E (prefix 1000 text) CATEGORIES = Ok result ->
        zs_labels result = top :: rest ->
        fst (classify_text E text w) = Ok top).
Proof.
  repeat split.
  - rewrite classify_text_run. unfold calls_since. simpl. apply skipn_length_app.
  - apply prefix_length.
  - apply prefix_is_prefix.
  - apply prefix_short.
  - intros other H. rewrite !classify_text_run. now rewrite H.
  - intros result top rest Hc Hl. rewrite classify_text_run. simpl.
    unfold top_label. now rewrite Hc, Hl.
Qed.

Lemma classify_text_bounded_prefix_witness :
  let long_a := repeat 97%N 1000 ++ lit " first ending" in
  let long_b := repeat 97%N 1000 ++ lit " second ending" in
  classify_text Sample.calm long_b Sample.fresh
  = classify_text Sample.calm long_a Sample.fresh
  /\ fst (classify_text Sample.calm long_a Sample.fresh) = Ok (lit "Math").
Proof.
  cbv zeta.
  destruct (classify_text_bounded_prefix Sample.calm
              (repeat 97%N 1000 ++ lit " first ending") Sample.fresh)
    as (_ & _ & _ & _ & Hsame & Htop).
  split.
  - apply Hsame. vm_compute. reflexivity.
  - eapply Htop; vm_compute; reflexivity.
Defined.

(** ** Fallback controller *)

Lemma printed_since_app (w w' : World) (extra : list str) :
  stdout w' = stdout w ++ extra -> printed_since w w' = extra.
Proof. intros H. unfold printed_since. rewrite H. apply skipn_length_app. Qed.

Lemma calls_since_app (w w' : World) (extra : list (str * list str)) :
  classifier_calls w' = classifier_calls w ++ extra -> calls_since w w' = extra.
Proof. intros H. unfold calls_since. rewrite H. apply skipn_length_app. Qed.

(** No other line of the controller can be mistaken for the fallback
    announcement. *)
Lemma content_banner_differs (c : str) : content_banner c <> fallback_banner.
Proof. unfold content_banner, fallback_banner. simpl. discriminate. Qed.

Lemma filename_banner_differs (c : str) : filename_banner c <> fallback_banner.
Proof.
  unfold filename_banner, fallback_banner. simpl. intros H.
  inversion H.
Qed.

(** The controller in normal form. *)
Lemma choose_category_run (E : Env) (file_path : Path) (text : str) (w : World) :
  choose_category E file_path text w =
  if truthy (strip text) then
    let w1 :=
      with_classifier_calls w
        (classifier_calls w ++ [(prefix 1000 text, CATEGORIES)]) in
    match top_label (classifier E (prefix 1000 text) CATEGORIES) with
    | Ok label =>
        let w2 := with_stdout w1 (stdout w1 ++ [content_banner label]) in
        if truthy label then (Ok label, w2) else filename_tier E file_path w2
    | Raise e =>
        filename_tier E file_path
          (with_stdout w1
             (stdout w1 ++ [lit "[!] Text classification failed: " ++ exn_str e]))
    end
  else
    filename_tier E file_path
      (with_stdout w (stdout w ++ [lit "[-] No readable text found."])).
Proof.
  unfold choose_category, filename_tier.
  destruct (truthy (strip text)); run.
  - rewrite classify_text_run.
    destruct (top_label (classifier E (prefix 1000 text) CATEGORIES)) as [label | e].
    + unfold unset. destruct (truthy label); reflexivity.
    + reflexivity.
  - reflexivity.
Qed.

Lemma filename_tier_run (E : Env) (file_path : Path) (w : World) :
  filename_tier E file_path w =
  let w1 :=
    with_classifier_calls (with_stdout w (stdout w ++ [fallback_banner]))
      (classifier_calls w ++ [(prefix 1000 (stem file_path), CATEGORIES)]) in
  match top_label (classifier E (prefix 1000 (stem file_path)) CATEGORIES) with
  | Ok label => (Ok label, with_stdout w1 (stdout w1 ++ [filename_banner label]))
  | Raise e =>
      (Ok DEFAULT_CATEGORY,
       with_stdout w1
         (stdout w1 ++ [lit "[!] Filename classification failed: " ++ exn_str e]))
  end.
Proof.
  unfold filename_tier. run. rewrite classify_text_run.
  destruct (top_label (classifier E (prefix 1000 (stem file_path)) CATEGORIES));
    reflexivity.
Qed.

Lemma filename_tier_effects (E : Env) (file_path : Path) (w : World) :
  exists line,
    stdout (snd (filename_tier E file_path w))
    = stdout w ++ [fallback_banner; line]
    /\ classifier_calls (snd (filename_tier E file_path w))
       = classifier_calls w ++ [(prefix 1000 (stem file_path), CATEGORIES)]
    /\ fst (filename_tier E file_path w)
       = match top_label (classifier E (prefix 1000 (stem file_path)) CATEGORIES) with
         | Ok label => Ok label
         | Raise _ => Ok DEFAULT_CATEGORY
         end.
Proof.
  rewrite filename_tier_run.
  destruct (top_label (classifier E (prefix 1000 (stem file_path)) CATEGORIES));
    simpl; eexists; (split; [rewrite <- app_assoc; reflexivity | split; reflexivity]).
Qed.


(** Otherwise the controller hands over to the filename tier, after one
    line of console output and at most one classifier call. *)
Lemma choose_category_fallback (E : Env) (file_path : Path) (text : str) (w : World) :
  truthy (strip text) = false
  \/ (exists e, top_label (classifier E (prefix 1000 text) CATEGORIES) = Raise e)
  \/ top_label (classifier E (prefix 1000 text) CATEGORIES) = Ok [] ->
  exists w1 line calls,
    choose_category E file_path text w = filename_tier E file_path w1
    /\ stdout w1 = stdout w ++ [line]
    /\ line <> fallback_banner
    /\ classifier_calls w1 = classifier_calls w ++ calls.
Proof.
  intros H. rewrite choose_category_run.
  destruct (truthy (strip text)) eqn:Ht.
  - destruct H as [H | [[e H] | H]]; [discriminate | |]; rewrite H; simpl.
    + do 3 eexists. split; [reflexivity |]. simpl.
      split; [reflexivity |]. split; [| reflexivity].
      unfold fallback_banner. simpl. discriminate.
    + do 3 eexists. split; [reflexivity |]. simpl.
      split; [reflexivity |]. split; [| reflexivity].
      apply content_banner_differs.
  - do 3 eexists. split; [reflexivity |]. simpl.
    split; [reflexivity |]. split; [| symmetry; apply app_nil_r].
    unfold fallback_banner. simpl. discriminate.
Qed.

Lemma choose_category_total (E : Env) (file_path : Path) (text : str) (w : World) :
  exists category w', choose_category E file_path text w = (Ok category, w').
Proof.
  assert (Hf : forall w1, exists category w', filename_tier E file_path w1 = (Ok category, w')).
  { intros w1. rewrite filename_tier_run.
    destruct (top_label (classifier E (prefix 1000 (stem file_path)) CATEGORIES));
      simpl; eauto. }
  rewrite choose_category_run.
  destruct (truthy (strip text)); [| apply Hf].
  simpl. destruct (top_label (classifier E (prefix 1000 text) CATEGORIES)) as [label | e];
    [| apply Hf].
  destruct (truthy label); [eauto | apply Hf].
Qed.

Lemma sample_classifier_ranks (move_f : World -> Path -> Path -> option exn)
  (create_f append_f : World -> option exn) :
  ranks_candidates (Sample.env Sample.second_first move_f create_f append_f).
Proof.
  intros text labels result. simpl. unfold Sample.second_first.
  destruct text; [discriminate |]. intros H. inversion H; subst; simpl.
  destruct labels as [| a [| b rest]]; try apply incl_refl.
  intros x [Hx | [Hx | Hx]]; subst; simpl; auto.
Qed.





(** C3. The controller always ends with one category and never raises; in
    particular, when the classification of the content and the
    classification of the file name both raise, the category is the default
    label "Other". *)
Theorem default_tier_never_fails (E : Env) (file_path : Path) (text : str)
  (w : World) :
  (exists category w', choose_category E file_path text w = (Ok category, w'))
  /\ (forall e1 e2 w1 w2,
        fst (classify_text E text w1) = Raise e1 ->
        fst (classify_text E (stem file_path) w2) = Raise e2 ->
        fst (choose_category E file_path text w) = Ok DEFAULT_CATEGORY)
  /\ DEFAULT_CATEGORY = lit "Other".
Proof.
  split; [apply choose_category_total |]. split; [| reflexivity].
  intros e1 e2 w1 w2 H1 H2. rewrite classify_text_run in H1, H2. simpl in H1, H2.
  destruct (choose_category_fallback E file_path text w)
    as (w3 & line & calls & Heq & _); [right; left; eauto |].
  rewrite Heq.
  destruct (filename_tier_effects E file_path w3) as (line2 & _ & _ & Hres).
  rewrite Hres, H2. reflexivity.
Qed.

Lemma default_tier_never_fails_witness :
  fst (choose_category Sample.model_down Sample.notes
         (lit "Solving quadratic equations and derivatives") Sample.fresh)
  = Ok (lit "Other").
Proof.
  destruct (default_tier_never_fails Sample.model_down Sample.notes
              (lit "Solving quadratic equations and derivatives") Sample.fresh)
    as (_ & Hboth & _).
  apply (Hboth (Exception (lit "model unavailable")) (Exception (lit "model unavailable"))
           Sample.fresh Sample.fresh);
    vm_compute; reflexivity.
Defined.

(** ** OCR of scanned PDFs *)

Lemma collect_Forall2 (A : Type) (rs : list (outcome A)) (values : list A) :
  collect rs = Ok values <-> Forall2 (fun r v => r = Ok v) rs values.
Proof.
  revert values. induction rs as [| r rs IH]; intros values; simpl.
  - split.
    + intros H. inversion H. constructor.
    + intros H. inversion H. reflexivity.
  - destruct r as [a | e].
    + destruct (collect rs) as [l | e] eqn:Hc.
      * split.
        -- intros H. inversion H; subst. constructor; [reflexivity | now apply IH].
        -- intros H. inversion H; subst. apply IH in H4. inversion H4; subst.
           inversion H2; subst. reflexivity.
      * split; [discriminate |].
        intros H. inversion H; subst. apply IH in H4. discriminate.
    + split; [discriminate |]. intros H. inversion H; subst. discriminate.
Qed.

Lemma collect_raises (A : Type) (rs : list (outcome A)) :
  Exists (fun r => exists e, r = Raise e) rs -> exists e, collect rs = Raise e.
Proof.
  induction rs as [| r rs IH]; intros H; inversion H; subst; simpl.
  - destruct H1 as [e He]. subst. eauto.
  - destruct r as [a | e]; [| eauto].
    destruct (IH H1) as [e He]. rewrite He. eauto.
Qed.

Lemma nth_error_seq_tail (A : Type) (pre l : list A) :
  map (nth_error (pre ++ l)) (seq (List.length pre) (List.length l)) = map Some l.
Proof.
  revert pre. induction l as [| x l IH]; intros pre; simpl; [reflexivity |].
  f_equal.
  - rewrite nth_error_app2 by lia. now rewrite Nat.sub_diag.
  - specialize (IH (pre ++ [x])).
    rewrite <- app_assoc, length_app in IH. simpl in IH.
    now rewrite Nat.add_1_r in IH.
Qed.

(** The page loop, for page numbers that designate the pages [pages]. *)
Lemma ocr_pdf_pages_run (E : Env) (doc : PdfDoc) (pages : list PdfPage) :
  forall (page_nums : list nat) (text_output : list str) (w : World),
    map (nth_error (pdf_pages doc)) page_nums = map Some pages ->
    ocr_pdf_pages E doc page_nums text_output w =
    match collect (map (page_fragments E) pages) with
    | Ok fragments => (Ok (text_output ++ map (join newline) fragments), w)
    | Raise e => (Raise e, w)
    end.
Proof.
  induction pages as [| page pages IH]; intros page_nums text_output w Hn.
  - destruct page_nums; [| discriminate]. simpl. run. now rewrite app_nil_r.
  - destruct page_nums as [| n page_nums]; [discriminate |].
    simpl in Hn. inversion Hn as [[Hpage Hrest]].
    simpl. unfold load_page_array, page_fragments at 1. rewrite Hpage. run.
    destruct (pixmap_array page) as [img_np | e]; [| reflexivity].
    destruct (readtext E (FromArray img_np)) as [result | e]; [| reflexivity].
    rewrite (IH _ _ _ Hrest).
    destruct (collect (map (page_fragments E) pages)) as [fragments | e];
      [| reflexivity].
    simpl. now rewrite <- app_assoc.
Qed.

Lemma ocr_pdf_run (E : Env) (file_path : Path) (w : World) :
  ocr_pdf E file_path w =
  let failed e :=
    (Ok [],
     with_stdout w
       (stdout w ++ [lit "[!] OCR failed for " ++ name file_path ++ lit ": " ++ exn_str e])) in
  match fitz_open E file_path with
  | Ok doc =>
      match collect (map (page_fragments E) (pdf_pages doc)) with
      | Ok fragments => (Ok (page_layout fragments), w)
      | Raise e => failed e
      end
  | Raise e => failed e
  end.
Proof.
  unfold ocr_pdf. run.
  destruct (fitz_open E file_path) as [doc | e]; [| reflexivity].
  rewrite (ocr_pdf_pages_run E doc (pdf_pages doc))
    by apply (nth_error_seq_tail []).
  destruct (collect (map (page_fragments E) (pdf_pages doc))); reflexivity.
Qed.

Lemma ocr_pdf_total (E : Env) (file_path : Path) (w : World) :
  exists text w', ocr_pdf E file_path w = (Ok text, w').
Proof.
  rewrite ocr_pdf_run. simpl.
  destruct (fitz_open E file_path) as [doc | e]; [| eauto].
  destruct (collect (map (page_fragments E) (pdf_pages doc))); eauto.
Qed.

(** C8, as the code has it.  The fragments recognised on one page are
    joined with single newlines, in the order the recognizer returned them,
    and the page texts are joined with one blank line, in page order; when
    opening the document, rendering a page or recognising it fails, the
    result is the empty string and nothing is raised. *)
Theorem ocr_pdf_layout (E : Env) (file_path : Path) (w : World) :
  (exists text w', ocr_pdf E file_path w = (Ok text, w'))
  /\ (forall doc fragments,
        fitz_open E file_path = Ok doc ->
        Forall2 (fun page result => page_fragments E page = Ok result)
          (pdf_pages doc) fragments ->
        ocr_pdf E file_path w
        = (Ok (join blank_line (map (join newline) fragments)), w))
  /\ (forall e,
        fitz_open E file_path = Raise e ->
        fst (ocr_pdf E file_path w) = Ok [])
  /\ (forall doc,
        fitz_open E file_path = Ok doc ->
        Exists (fun page => exists e, page_fragments E page = Raise e) (pdf_pages doc) ->
        fst (ocr_pdf E file_path w) = Ok [])
  /\ (forall a b c : str,
        join blank_line (map (join newline) [[a; b]; [c]])
        = a ++ newline ++ b ++ blank_line ++ c).
Proof.
  split; [apply ocr_pdf_total |].
  split; [| split; [| split]].
  - intros doc fragments Ho Hf. rewrite ocr_pdf_run, Ho. simpl.
    assert (Hc : collect (map (page_fragments E) (pdf_pages doc)) = Ok fragments).
    { apply collect_Forall2. clear Ho.
      induction Hf; simpl; constructor; auto. }
    now rewrite Hc.
  - intros e Ho. rewrite ocr_pdf_run, Ho. reflexivity.
  - intros doc Ho Hex. rewrite ocr_pdf_run, Ho. simpl.
    destruct (@collect_raises _ (map (page_fragments E) (pdf_pages doc))) as [e He].
    + clear Ho. induction Hex; simpl; [now left | now right].
    + now rewrite He.
  - intros a b c. simpl. now rewrite <- !app_assoc.
Qed.

Lemma ocr_pdf_layout_witness :
  ocr_pdf Sample.calm Sample.scan Sample.fresh
  = (Ok (lit "line one" ++ newline ++ lit "line two" ++ blank_line
         ++ lit "line one" ++ newline ++ lit "line two"), Sample.fresh)
  /\ fst (ocr_pdf Sample.ocr_broken Sample.scan Sample.fresh) = Ok [].
Proof.
  split.
  - destruct (ocr_pdf_layout Sample.calm Sample.scan Sample.fresh)
      as (_ & Hok & _).
    rewrite (Hok (mkPdfDoc [Sample.scanned_page; Sample.scanned_page])
               [[lit "line one"; lit "line two"]; [lit "line one"; lit "line two"]]).
    + reflexivity.
    + reflexivity.
    + repeat constructor.
  - destruct (ocr_pdf_layout Sample.ocr_broken Sample.scan Sample.fresh)
      as (_ & _ & _ & Hbad & _).
    apply (Hbad (mkPdfDoc [Sample.scanned_page; Sample.scanned_page])).
    + reflexivity.
    + left. eexists. reflexivity.
Defined.

(** C8 as worded: a blank line between the fragments of one page.  A
    scanned document whose pages carry two fragments each comes out with a
    single newline between them. *)
Lemma fragments_not_blank_line_separated :
  Forall2 (fun page result => page_fragments Sample.calm page = Ok result)
    [Sample.scanned_page; Sample.scanned_page]
    [[lit "line one"; lit "line two"]; [lit "line one"; lit "line two"]]
  /\ fitz_open Sample.calm Sample.scan
     = Ok (mkPdfDoc [Sample.scanned_page; Sample.scanned_page])
  /\ fst (ocr_pdf Sample.calm Sample.scan Sample.fresh)
     <> Ok (blank_line_layout
              [[lit "line one"; lit "line two"]; [lit "line one"; lit "line two"]]).
Proof.
  split; [repeat constructor |]. split; [reflexivity |].
  vm_compute. discriminate.
Qed.

(** ** Text extraction *)

Lemma extract_text_run (E : Env) (file_path : Path) (w : World) :
  extract_text_from_file E file_path w =
  match extract_body E file_path (lower E (suffix file_path)) w with
  | (Ok text, w') => (Ok text, w')
  | (Raise e, w') =>
      (Ok [],
       with_stdout w'
         (stdout w' ++ [lit "[!] Error reading " ++ name file_path ++ lit ": " ++ exn_str e]))
  end.
Proof.
  unfold extract_text_from_file. run.
  destruct (extract_body E file_path (lower E (suffix file_path)) w) as [[text | e] w'];
    reflexivity.
Qed.

Lemma extract_text_total (E : Env) (file_path : Path) (w : World) :
  exists text w', extract_text_from_file E file_path w = (Ok text, w').
Proof.
  rewrite extract_text_run.
  destruct (extract_body E file_path (lower E (suffix file_path)) w) as [[text | e] w'];
    eauto.
Qed.

Lemma extract_unsupported (E : Env) (file_path : Path) (w : World) :
  ~ In (lower E (suffix file_path)) supported_suffixes ->
  extract_text_from_file E file_path w =
  (Ok [], with_stdout w (stdout w ++ [lit "Unsupported file type: " ++ name file_path])).
Proof.
  intros Hn. rewrite extract_text_run. unfold extract_body.
  assert (Himg : in_strs (lower E (suffix file_path)) image_suffixes = false).
  { destruct (in_strs (lower E (suffix file_path)) image_suffixes) eqn:Hi; [| reflexivity].
    apply in_strs_In in Hi. exfalso. apply Hn.
    unfold supported_suffixes. apply in_or_app. now right. }
  rewrite !str_eqb_neq, Himg.
  - reflexivity.
  - intros H. apply Hn. rewrite H. unfold supported_suffixes. simpl. tauto.
  - intros H. apply Hn. rewrite H. unfold supported_suffixes. simpl. tauto.
  - intros H. apply Hn. rewrite H. unfold supported_suffixes. simpl. tauto.
Qed.

(** C5. Text extraction returns a text for every file and never raises:
    whatever is raised while reading or parsing (by the text reader, the PDF
    reader, the DOCX reader or the OCR reader) is caught and the result is
    the empty string, and a file whose lower-cased extension is none of
    .txt, .pdf, .docx, .png, .jpg, .jpeg, .gif, .bmp gives the empty string
    as well. *)
Theorem extract_text_never_raises (E : Env) (file_path : Path) (w : World) :
  (exists text w', extract_text_from_file E file_path w = (Ok text, w'))
  /\ (forall e w1,
        extract_body E file_path (lower E (suffix file_path)) w = (Raise e, w1) ->
        fst (extract_text_from_file E file_path w) = Ok [])
  /\ (forall e,
        lower E (suffix file_path) = lit ".txt" ->
        read_text E file_path = Raise e ->
        fst (extract_text_from_file E file_path w) = Ok [])
  /\ (forall e,
        lower E (suffix file_path) = lit ".pdf" ->
        fitz_open E file_path = Raise e ->
        fst (extract_text_from_file E file_path w) = Ok [])
  /\ (forall e,
        lower E (suffix file_path) = lit ".docx" ->
        docx_paragraphs E file_path = Raise e ->
        fst (extract_text_from_file E file_path w) = Ok [])
  /\ (forall e size,
        In (lower E (suffix file_path)) image_suffixes ->
        path_exists E file_path = Ok true ->
        st_size E file_path = Ok size ->
        size <> 0%N ->
        readtext E (FromFile (path_str file_path)) = Raise e ->
        fst (extract_text_from_file E file_path w) = Ok [])
  /\ (~ In (lower E (suffix file_path)) supported_suffixes ->
      fst (extract_text_from_file E file_path w) = Ok [])
  /\ supported_suffixes
     = [lit ".txt"; lit ".pdf"; lit ".docx"; lit ".png"; lit ".jpg";
        lit ".jpeg"; lit ".gif"; lit ".bmp"].
Proof.
  split; [apply extract_text_total |].
  split; [| split; [| split; [| split; [| split; [| split]]]]].
  - intros e w1 H. rewrite extract_text_run, H. reflexivity.
  - intros e Hext Hr. rewrite extract_text_run, Hext. unfold extract_body.
    simpl. run. now rewrite Hr.
  - intros e Hext Hr. rewrite extract_text_run, Hext. unfold extract_body.
    simpl. run. now rewrite Hr.
  - intros e Hext Hr. rewrite extract_text_run, Hext. unfold extract_body.
    simpl. run. now rewrite Hr.
  - intros e size Hext Hp Hs Hsize Hr. rewrite extract_text_run.
    unfold extract_body.
    assert (Hi : in_strs (lower E (suffix file_path)) image_suffixes = true)
      by now apply in_strs_In.
    assert (Hz : N.eqb size 0 = false) by now apply N.eqb_neq.
    assert (Hne : forall s,
               In s [lit ".txt"; lit ".pdf"; lit ".docx"] ->
               str_eqb (lower E (suffix file_path)) s = false).
    { intros s Hin. apply str_eqb_neq. intros Heq. rewrite Heq in Hext.
      unfold image_suffixes in Hext. simpl in Hin, Hext.
      destruct Hin as [<- | [<- | [<- | []]]];
        repeat (destruct Hext as [Hext | Hext]; [discriminate Hext |]);
        contradiction. }
    rewrite !Hne by (simpl; tauto). rewrite Hi. run.
    rewrite Hp. simpl. rewrite Hs, Hz, Hr. reflexivity.
  - intros Hn. now rewrite extract_unsupported.
  - reflexivity.
Qed.

Lemma extract_text_never_raises_witness :
  fst (extract_text_from_file Sample.unreadable Sample.notes Sample.fresh) = Ok []
  /\ fst (extract_text_from_file Sample.calm Sample.archive Sample.fresh) = Ok [].
Proof.
  split.
  - destruct (extract_text_never_raises Sample.unreadable Sample.notes Sample.fresh)
      as (_ & _ & Htxt & _).
    apply (Htxt (Exception (lit "Permission denied"))); vm_compute; reflexivity.
  - destruct (extract_text_never_raises Sample.calm Sample.archive Sample.fresh)
      as (_ & _ & _ & _ & _ & _ & Hother & _).
    apply Hother. vm_compute.
    intros H. repeat (destruct H as [H | H]; [discriminate H |]). contradiction.
Defined.

(** ** Computations that leave the files alone *)

Lemma same_files_refl (w : World) : same_files w w.
Proof. now repeat split. Qed.

Lemma same_files_trans (w1 w2 w3 : World) :
  same_files w1 w2 -> same_files w2 w3 -> same_files w1 w3.
Proof.
  intros (H1 & H2 & H3) (H4 & H5 & H6). repeat split; congruence.
Qed.

Lemma quiet_ret (A : Type) (a : A) : quiet (ret a).
Proof. intros w. apply same_files_refl. Qed.

Lemma quiet_raise (A : Type) (e : exn) : quiet (@raise A e).
Proof. intros w. apply same_files_refl. Qed.

Lemma quiet_call (A : Type) (r : outcome A) : quiet (call r).
Proof. intros w. apply same_files_refl. Qed.

Lemma quiet_print (msg : str) : quiet (print msg).
Proof. intros w. now repeat split. Qed.

Lemma quiet_record_call (text : str) (labels : list str) :
  quiet (record_call text labels).
Proof. intros w. now repeat split. Qed.

Lemma quiet_bind (A B : Type) (m : M A) (k : A -> M B) :
  quiet m -> (forall a, quiet (k a)) -> quiet (bind m k).
Proof.
  intros Hm Hk w. unfold bind. specialize (Hm w).
  destruct (m w) as [[a | e] w1]; simpl in *; [| assumption].
  eapply same_files_trans; [eassumption | apply Hk].
Qed.

Lemma quiet_try_except (A : Type) (body : M A) (handler : exn -> M A) :
  quiet body -> (forall e, quiet (handler e)) -> quiet (try_except body handler).
Proof.
  intros Hb Hh w. unfold try_except. specialize (Hb w).
  destruct (body w) as [[a | e] w1]; simpl in *; [assumption |].
  eapply same_files_trans; [eassumption | apply Hh].
Qed.

Lemma quiet_if (A : Type) (b : bool) (m1 m2 : M A) :
  quiet m1 -> quiet m2 -> quiet (if b then m1 else m2).
Proof. now destruct b. Qed.

Create HintDb quiet.
#[local] Hint Resolve quiet_ret quiet_raise quiet_call quiet_print
  quiet_record_call quiet_bind quiet_try_except quiet_if : quiet.

Ltac quiet_tac :=
  cbv zeta;
  lazymatch goal with
  | |- quiet (bind _ _) => apply quiet_bind; [quiet_tac | intros ?; quiet_tac]
  | |- quiet (try_except _ _) =>
      apply quiet_try_except; [quiet_tac | intros ?; quiet_tac]
  | |- quiet (if _ then _ else _) => apply quiet_if; quiet_tac
  | |- quiet (match ?x with _ => _ end) => destruct x; quiet_tac
  | |- _ => auto with quiet
  end.

Lemma quiet_ocr_pdf_pages (E : Env) (doc : PdfDoc) (page_nums : list nat) :
  forall text_output, quiet (ocr_pdf_pages E doc page_nums text_output).
Proof.
  induction page_nums as [| n page_nums IH]; intros text_output; simpl;
    quiet_tac.
Qed.

Lemma quiet_ocr_pdf (E : Env) (file_path : Path) : quiet (ocr_pdf E file_path).
Proof.
  unfold ocr_pdf. pose proof (quiet_ocr_pdf_pages E). quiet_tac.
Qed.

Lemma quiet_extract_text (E : Env) (file_path : Path) :
  quiet (extract_text_from_file E file_path).
Proof.
  unfold extract_text_from_file, extract_body.
  pose proof (quiet_ocr_pdf E file_path). quiet_tac.
Qed.

Lemma quiet_classify_text (E : Env) (text : str) : quiet (classify_text E text).
Proof. unfold classify_text. quiet_tac. Qed.

Lemma quiet_choose_category (E : Env) (file_path : Path) (text : str) :
  quiet (choose_category E file_path text).
Proof.
  unfold choose_category. pose proof (quiet_classify_text E). quiet_tac.
Qed.

Lemma quiet_categorise (E : Env) (file_path : Path) : quiet (categorise E file_path).
Proof.
  unfold categorise.
  pose proof (quiet_extract_text E file_path).
  pose proof (quiet_choose_category E file_path).
  quiet_tac.
Qed.

Lemma categorise_total (E : Env) (file_path : Path) (w : World) :
  exists category w1,
    categorise E file_path w = (Ok category, w1) /\ same_files w w1.
Proof.
  pose proof (quiet_categorise E file_path w) as Hq.
  set (w0 := with_stdout w
               (stdout w ++ [newline ++ arrow ++ lit " Processing: " ++ name file_path])).
  destruct (extract_text_total E file_path w0) as (text & w1 & Hx).
  destruct (choose_category_total E file_path text w1) as (category & w2 & Hc).
  assert (Hrun : categorise E file_path w = (Ok category, w2)).
  { unfold categorise.
    rewrite (bind_ok _ _ w (a := tt) (w' := w0)) by reflexivity.
    rewrite (bind_ok _ _ w0 Hx). exact Hc. }
  rewrite Hrun in Hq. eauto.
Qed.

(** ** Destination paths *)

Lemma joinpath_adds_slash (base : Path) (segment : str) :
  segment <> [] -> In slash (joinpath base segment).
Proof.
  destruct segment as [| c rest]; [congruence |]. intros _. unfold joinpath.
  destruct (N.eqb c slash) eqn:Hc.
  - apply N.eqb_eq in Hc. left. assumption.
  - destruct (ends_with_slash base) eqn:He.
    + unfold ends_with_slash in He.
      destruct (rev base) as [| x l] eqn:Hr; [discriminate |].
      apply N.eqb_eq in He. subst x.
      apply in_or_app. left. apply in_rev. rewrite Hr. now left.
    + apply in_or_app. right. now left.
Qed.

Lemma joinpath_keeps_slash (base : Path) (segment : str) :
  In slash base -> In slash (joinpath base segment).
Proof.
  intros Hb. destruct segment as [| c rest] eqn:Hs; [assumption |].
  rewrite <- Hs. apply joinpath_adds_slash. congruence.
Qed.

Lemma documents_has_slash (E : Env) : In slash (DOCUMENTS E).
Proof. unfold DOCUMENTS. apply joinpath_adds_slash. discriminate. Qed.

Lemma target_has_slash (E : Env) (category file_name : str) :
  In slash (joinpath (joinpath (DOCUMENTS E) category) file_name).
Proof. do 2 apply joinpath_keeps_slash. apply documents_has_slash. Qed.

Lemma slash_truthy (p : str) : In slash p -> truthy p = true.
Proof. destruct p; [contradiction | reflexivity]. Qed.

(** ** Relocation and logging in normal form *)

Lemma move_file_run (E : Env) (file_path : Path) (category : str) (w : World) :
  move_file E file_path category w =
  let destination := joinpath (DOCUMENTS E) category in
  let target := joinpath destination (name file_path) in
  match mkdir_fault E w destination with
  | Some e => (Raise e, w)
  | None =>
      match move_fault E w file_path target with
      | Some e =>
          (Ok None,
           with_stdout w
             (stdout w ++ [lit "[!] Error moving " ++ name file_path ++ lit ": " ++ exn_str e]))
      | None =>
          (Ok (Some (path_str target)),
           with_stdout
             (with_relocated w
                (relocated w ++ [(file_path, landing E w file_path target)]))
             (stdout w
              ++ [lit "Moved '" ++ name file_path ++ lit "' " ++ arrow ++ lit " " ++ category]))
      end
  end.
Proof.
  unfold move_file, mkdir, shutil_move. run.
  destruct (mkdir_fault E w (joinpath (DOCUMENTS E) category)); [reflexivity |].
  destruct (move_fault E w file_path
              (joinpath (joinpath (DOCUMENTS E) category) (name file_path)));
    reflexivity.
Qed.

Lemma log_action_run (E : Env) (file_name category new_path : str) (w : World) :
  log_action E file_name category new_path w =
  match log_append_fault E w with
  | Some e => (Raise e, w)
  | None =>
      (Ok tt,
       mkWorld (stdout w) (classifier_calls w)
         (Some (log_rows w
                ++ [[now_isoformat E (clock_reads w); file_name; category; new_path]]))
         (relocated w) (S (clock_reads w)))
  end.
Proof.
  unfold log_action, open_append, datetime_now_isoformat, writerow. run.
  destruct (log_append_fault E w); reflexivity.
Qed.

Lemma process_file_run (E : Env) (file_path : Path) (w : World) :
  process_file E file_path w =
  match categorise E file_path w with
  | (Ok category, w1) =>
      match move_file E file_path category w1 with
      | (Ok (Some new_path), w2) =>
          if truthy new_path
          then log_action E (name file_path) category new_path w2
          else (Ok tt, w2)
      | (Ok None, w2) => (Ok tt, w2)
      | (Raise e, w2) => (Raise e, w2)
      end
  | (Raise e, w1) => (Raise e, w1)
  end.
Proof.
  unfold process_file, categorise. run.
  destruct (extract_text_from_file E file_path _) as [[text | e] w0];
    [| reflexivity].
  destruct (choose_category E file_path text w0) as [[category | e] w1];
    [| reflexivity].
  destruct (move_file E file_path category w1) as [[[new_path |] | e] w2];
    try reflexivity.
  destruct (truthy new_path); reflexivity.
Qed.

(** The four ways the processing of one file can end. *)
Lemma process_file_cases (E : Env) (file_path : Path) (w : World) :
  exists category w1,
    categorise E file_path w = (Ok category, w1)
    /\ same_files w w1
    /\ let destination := joinpath (DOCUMENTS E) category in
       let target := joinpath destination (name file_path) in
       (* mkdir raised *)
       (exists e,
           mkdir_fault E w1 destination = Some e
           /\ process_file E file_path w = (Raise e, w1))
       \/
       (* the move failed: failure signal, nothing logged *)
       (exists e w2,
           mkdir_fault E w1 destination = None
           /\ move_fault E w1 file_path target = Some e
           /\ move_file E file_path category w1 = (Ok None, w2)
           /\ process_file E file_path w = (Ok tt, w2)
           /\ same_files w w2)
       \/
       (* moved, but the append raised *)
       (exists e w2,
           move_file E file_path category w1 = (Ok (Some (path_str target)), w2)
           /\ log_append_fault E w2 = Some e
           /\ process_file E file_path w = (Raise e, w2)
           /\ log_file w2 = log_file w
           /\ relocated w2
              = relocated w ++ [(file_path, landing E w1 file_path target)])
       \/
       (* moved and logged *)
       (exists w2 w3,
           move_file E file_path category w1 = (Ok (Some (path_str target)), w2)
           /\ log_append_fault E w2 = None
           /\ process_file E file_path w = (Ok tt, w3)
           /\ log_file w3
              = Some (log_rows w
                      ++ [[now_isoformat E (clock_reads w); name file_path;
                           category; path_str target]])
           /\ relocated w3
              = relocated w ++ [(file_path, landing E w1 file_path target)]).
Proof.
  destruct (categorise_total E file_path w) as (category & w1 & Hcat & Hlog & Hrel & Hclk).
  exists category, w1. split; [assumption |]. split; [now repeat split |].
  cbv zeta. rewrite process_file_run, Hcat, !move_file_run. cbv zeta.
  destruct (mkdir_fault E w1 (joinpath (DOCUMENTS E) category)) as [e |] eqn:Hmk.
  { left. eauto. }
  destruct (move_fault E w1 file_path
              (joinpath (joinpath (DOCUMENTS E) category) (name file_path)))
    as [e |] eqn:Hmv.
  { right. left. do 2 eexists. repeat split; simpl; congruence. }
  right. right.
  unfold path_str.
  rewrite (@slash_truthy _ (target_has_slash E category (name file_path))).
  rewrite log_action_run.
  match goal with
  | |- context [log_append_fault E ?w2] =>
      destruct (log_append_fault E w2) as [e |] eqn:Hap
  end.
  - left. do 2 eexists. repeat split; simpl; try eassumption; congruence.
  - right. do 2 eexists. repeat split; simpl; try eassumption.
    + unfold log_rows. simpl. rewrite Hlog, Hclk. reflexivity.
    + congruence.
Qed.

(** ** One file: relocation and its audit entry *)

Lemma skipn_own_length (A : Type) (l : list A) : skipn (List.length l) l = [].
Proof. induction l; simpl; auto. Qed.

Lemma rows_since_same (w w' : World) :
  log_file w' = log_file w -> rows_since w w' = [].
Proof.
  intros H. unfold rows_since, log_rows. rewrite H. apply skipn_own_length.
Qed.

Lemma rows_since_app (w w' : World) (extra : list row) :
  log_file w' = Some (log_rows w ++ extra) -> rows_since w w' = extra.
Proof.
  intros H. unfold rows_since. unfold log_rows at 2. rewrite H.
  apply skipn_length_app.
Qed.

Lemma moves_since_same (w w' : World) :
  relocated w' = relocated w -> moves_since w w' = [].
Proof. intros H. unfold moves_since. rewrite H. apply skipn_own_length. Qed.

Lemma moves_since_app (w w' : World) (extra : list (Path * Path)) :
  relocated w' = relocated w ++ extra -> moves_since w w' = extra.
Proof. intros H. unfold moves_since. rewrite H. apply skipn_length_app. Qed.

Lemma move_file_failure_signal (E : Env) (file_path : Path) (category : str)
  (w1 w2 : World) :
  move_file E file_path category w1 = (Ok None, w2) -> same_files w1 w2.
Proof.
  rewrite move_file_run. cbv zeta.
  destruct (mkdir_fault E w1 _); [discriminate |].
  destruct (move_fault E w1 file_path _); [| discriminate].
  intros H. inversion H. now repeat split.
Qed.

(** C4, as the code has it.  While one file is processed, a row is added
    to the audit log exactly when the file was moved and its processing
    ended without raising (that is, the append itself went through); the
    row then carries the file's name and, as destination, the target path
    under Documents that was handed to the move, which is where the file
    has been moved to whenever no directory was there already.  When the
    move fails and the relocator signals it, the log is left as it was, the
    file's processing ends normally and the loop continues with the next
    file. *)
Theorem audit_entry_matches_move (E : Env) (file_path : Path) (w : World) :
  let r := fst (process_file E file_path w) in
  let w' := snd (process_file E file_path w) in
  (rows_since w w' <> [] <-> moves_since w w' <> [] /\ r = Ok tt)
  /\ (rows_since w w' <> [] ->
      exists timestamp category w1,
        let target :=
          joinpath (joinpath (DOCUMENTS E) category) (name file_path) in
        categorise E file_path w = (Ok category, w1)
        /\ rows_since w w' = [[timestamp; name file_path; category; path_str target]]
        /\ moves_since w w' = [(file_path, landing E w1 file_path target)]
        /\ (target_is_dir E w1 target = false ->
            landing E w1 file_path target = target))
  /\ (forall category w1 w2,
        categorise E file_path w = (Ok category, w1) ->
        move_file E file_path category w1 = (Ok None, w2) ->
        process_file E file_path w = (Ok tt, w2)
        /\ log_file w2 = log_file w
        /\ rows_since w w2 = []
        /\ forall rest,
             is_file E file_path = true ->
             for_each (file_path :: rest) (loop_body E) w
             = for_each rest (loop_body E) w2).
Proof.
  cbv zeta. split; [| split].
  - destruct (process_file_cases E file_path w)
      as (category & w1 & Hcat & (Hlog & Hrel & _) & Hcases).
    cbv zeta in Hcases.
    destruct Hcases as [(e & _ & Hp) | [(e & w2 & _ & _ & _ & Hp & Hl2 & Hr2 & _)
                       | [(e & w2 & _ & _ & Hp & Hl2 & Hr2) | (w2 & w3 & _ & _ & Hp & Hl3 & Hr3)]]];
      rewrite Hp; simpl.
    + rewrite (rows_since_same w w1 Hlog), (moves_since_same w w1 Hrel).
      split; [congruence | intros [H _]; congruence].
    + rewrite (rows_since_same w w2 Hl2), (moves_since_same w w2 Hr2).
      split; [congruence | intros [H _]; congruence].
    + rewrite (rows_since_same w w2 Hl2).
      split; [congruence | intros [_ H]; discriminate].
    + rewrite (rows_since_app w w3 _ Hl3), (moves_since_app w w3 _ Hr3).
      split; [intros _; split; [discriminate | reflexivity] | discriminate].
  - destruct (process_file_cases E file_path w)
      as (category & w1 & Hcat & (Hlog & Hrel & _) & Hcases).
    cbv zeta in Hcases.
    destruct Hcases as [(e & _ & Hp) | [(e & w2 & _ & _ & _ & Hp & Hl2 & Hr2 & _)
                       | [(e & w2 & _ & _ & Hp & Hl2 & Hr2) | (w2 & w3 & _ & _ & Hp & Hl3 & Hr3)]]];
      rewrite Hp; simpl.
    + rewrite (rows_since_same w w1 Hlog). congruence.
    + rewrite (rows_since_same w w2 Hl2). congruence.
    + rewrite (rows_since_same w w2 Hl2). congruence.
    + rewrite (rows_since_app w w3 _ Hl3), (moves_since_app w w3 _ Hr3).
      intros _. exists (now_isoformat E (clock_reads w)), category, w1.
      split; [exact Hcat |]. split; [reflexivity |]. split; [reflexivity |].
      intros Hdir. unfold landing. now rewrite Hdir.
  - intros category w1 w2 Hcat Hmove.
    assert (Hp : process_file E file_path w = (Ok tt, w2))
      by (rewrite process_file_run, Hcat, Hmove; reflexivity).
    pose proof (quiet_categorise E file_path w) as Hq. rewrite Hcat in Hq.
    pose proof (same_files_trans Hq (move_file_failure_signal _ _ _ _ Hmove))
      as (Hl & _ & _).
    split; [exact Hp |]. split; [exact Hl |].
    split; [now apply rows_since_same |].
    intros rest Hfile. simpl.
    rewrite (bind_ok _ _ w (a := tt) (w' := w2)); [reflexivity |].
    unfold loop_body. now rewrite Hfile.
Qed.

Lemma audit_entry_matches_move_witness :
  let r := fst (process_file Sample.calm Sample.notes Sample.fresh) in
  let w' := snd (process_file Sample.calm Sample.notes Sample.fresh) in
  let denied := process_file Sample.move_denied Sample.notes Sample.fresh in
  (r = Ok tt
   /\ exists timestamp category w1,
        let target :=
          joinpath (joinpath (DOCUMENTS Sample.calm) category) (name Sample.notes) in
        categorise Sample.calm Sample.notes Sample.fresh = (Ok category, w1)
        /\ rows_since Sample.fresh w'
           = [[timestamp; name Sample.notes; category; path_str target]]
        /\ moves_since Sample.fresh w'
           = [(Sample.notes, landing Sample.calm w1 Sample.notes target)]
        /\ (target_is_dir Sample.calm w1 target = false ->
            landing Sample.calm w1 Sample.notes target = target))
  /\ (fst denied = Ok tt /\ log_file (snd denied) = log_file Sample.fresh).
Proof.
  cbv zeta. split.
  - split; [vm_compute; reflexivity |].
    destruct (audit_entry_matches_move Sample.calm Sample.notes Sample.fresh)
      as (_ & Hrow & _).
    apply Hrow. vm_compute. discriminate.
  - destruct (audit_entry_matches_move Sample.move_denied Sample.notes Sample.fresh)
      as (_ & _ & Hfail).
    pose (w1 := snd (categorise Sample.move_denied Sample.notes Sample.fresh)).
    pose (w2 := snd (move_file Sample.move_denied Sample.notes (lit "Math") w1)).
    destruct (Hfail (lit "Math") w1 w2) as (Hp & Hl & _);
      try (vm_compute; reflexivity).
    rewrite Hp. split; [reflexivity | exact Hl].
Defined.

(** C4 as worded: an entry if and only if the move succeeded, with the path
    the file was moved to.  With a log that cannot be opened for appending,
    the file is moved and no entry is written; and with a folder already
    standing at the target path, the file is moved inside that folder while
    the entry carries the target path. *)
Lemma moved_without_entry :
  let w' := snd (process_file Sample.log_locked Sample.notes Sample.fresh) in
  let v' :=
    snd (process_file Scenario.name_taken_by_folder Sample.notes Sample.fresh) in
  (moves_since Sample.fresh w'
   = [(Sample.notes, lit "/home/u/Documents/Math/algebra_notes.txt")]
   /\ rows_since Sample.fresh w' = []
   /\ ~ (rows_since Sample.fresh w' <> [] <-> moves_since Sample.fresh w' <> []))
  /\ (map snd (moves_since Sample.fresh v')
      = [lit "/home/u/Documents/Math/algebra_notes.txt/algebra_notes.txt"]
      /\ map row_new_path (rows_since Sample.fresh v')
         = [lit "/home/u/Documents/Math/algebra_notes.txt"]
      /\ map row_new_path (rows_since Sample.fresh v')
         <> map snd (moves_since Sample.fresh v')).
Proof.
  cbv zeta. split.
  - split; [vm_compute; reflexivity |].
    split; [vm_compute; reflexivity |].
    intros [_ H]. apply H; vm_compute; [discriminate | reflexivity].
  - split; [vm_compute; reflexivity |].
    split; [vm_compute; reflexivity |].
    vm_compute. discriminate.
Qed.

(** C10. The move is completed before the append is attempted and the
    append is not guarded: when the append raises for a file that has just
    been moved, the exception leaves the loop and [process_downloads], the
    file stays moved, the log is as it was before the file, and the world
    the run ends in is the one reached at the failed append, whatever
    entries remained in the listing. *)
Theorem log_failure_aborts_run (E : Env) (pre rest : list Path)
  (file_path : Path) (w0 w w1 w2 : World) (category new_path : str) (e : exn) :
  iterdir E (DOWNLOADS E) = Ok (pre ++ file_path :: rest) ->
  for_each pre (loop_body E)
    (snd (print (newline ++ lit "Scanning: " ++ path_str (DOWNLOADS E)) w0))
  = (Ok tt, w) ->
  is_file E file_path = true ->
  categorise E file_path w = (Ok category, w1) ->
  move_file E file_path category w1 = (Ok (Some new_path), w2) ->
  log_append_fault E w2 = Some e ->
  process_downloads E w0 = (Raise e, w2)
  /\ for_each (file_path :: rest) (loop_body E) w = (Raise e, w2)
  /\ new_path = path_str (joinpath (joinpath (DOCUMENTS E) category) (name file_path))
  /\ moves_since w w2 = [(file_path, landing E w1 file_path new_path)]
  /\ log_file w2 = log_file w
  /\ rows_since w w2 = [].
Proof.
  intros Hdir Hpre Hfile Hcat Hmove Hfault.
  pose proof (quiet_categorise E file_path w) as Hq. rewrite Hcat in Hq.
  destruct Hq as (Hl1 & Hr1 & _). simpl in Hl1, Hr1.
  assert (Hnew : new_path
                 = joinpath (joinpath (DOCUMENTS E) category) (name file_path)
                 /\ log_file w2 = log_file w1
                 /\ relocated w2
                    = relocated w1 ++ [(file_path, landing E w1 file_path new_path)]).
  { rewrite move_file_run in Hmove. cbv zeta in Hmove.
    destruct (mkdir_fault E w1 _); [discriminate |].
    destruct (move_fault E w1 file_path _); [discriminate |].
    inversion Hmove; subst. now repeat split. }
  destruct Hnew as (Hnew & Hl2 & Hr2).
  assert (Hp : process_file E file_path w = (Raise e, w2)).
  { rewrite process_file_run, Hcat, Hmove.
    rewrite Hnew at 1.
    rewrite (@slash_truthy _ (target_has_slash E category (name file_path))).
    rewrite log_action_run, Hfault. reflexivity. }
  assert (Hloop : for_each (file_path :: rest) (loop_body E) w = (Raise e, w2)).
  { simpl. apply bind_raise. unfold loop_body. now rewrite Hfile. }
  split; [| split; [exact Hloop |]].
  - unfold process_downloads.
    rewrite (bind_ok _ _ w0 (a := tt)
               (w' := snd (print (newline ++ lit "Scanning: " ++ path_str (DOWNLOADS E)) w0)))
      by reflexivity.
    unfold bind at 1. unfold call. rewrite Hdir.
    apply bind_raise. erewrite for_each_app by exact Hpre. exact Hloop.
  - split; [exact Hnew |].
    split; [apply moves_since_app; congruence |].
    split; [congruence |].
    apply rows_since_same. congruence.
Qed.

Lemma log_failure_aborts_run_witness :
  process_downloads Sample.log_locked Sample.fresh
  = (Raise (Exception (lit "Permission denied")),
     snd (process_file Sample.log_locked Sample.notes
            (snd (print (newline ++ lit "Scanning: "
                         ++ path_str (DOWNLOADS Sample.log_locked)) Sample.fresh))))
  /\ relocated (snd (process_downloads Sample.log_locked Sample.fresh))
     = [(Sample.notes, lit "/home/u/Documents/Math/algebra_notes.txt")]
  /\ log_file (snd (process_downloads Sample.log_locked Sample.fresh)) = None.
Proof.
  pose (w := snd (print (newline ++ lit "Scanning: "
                         ++ path_str (DOWNLOADS Sample.log_locked)) Sample.fresh)).
  pose (w1 := snd (categorise Sample.log_locked Sample.notes w)).
  pose (w2 := snd (move_file Sample.log_locked Sample.notes (lit "Math") w1)).
  destruct (@log_failure_aborts_run Sample.log_locked [] [Sample.archive]
              Sample.notes Sample.fresh w w1 w2 (lit "Math")
              (lit "/home/u/Documents/Math/algebra_notes.txt")
              (Exception (lit "Permission denied")))
    as (Hrun & _); try (vm_compute; reflexivity).
  rewrite Hrun. repeat split; vm_compute; reflexivity.
Defined.

(** ** The run as a whole: what reaches the audit log *)

Lemma logged_moves_same (E : Env) (w w' : World) :
  same_files w w' -> logged_moves E w w'.
Proof.
  intros (Hl & Hr & _). exists [], []. unfold log_rows.
  rewrite Hl, Hr, !app_nil_r. repeat split; auto.
Qed.

Lemma logged_moves_trans (E : Env) (w1 w2 w3 : World) :
  logged_moves E w1 w2 -> logged_moves E w2 w3 -> logged_moves E w1 w3.
Proof.
  intros (rows1 & moves1 & Hl1 & Hr1 & Hf1 & He1)
         (rows2 & moves2 & Hl2 & Hr2 & Hf2 & He2).
  exists (rows1 ++ rows2), (moves1 ++ moves2).
  split; [rewrite Hl2, Hl1; symmetry; apply app_assoc |].
  split; [rewrite Hr2, Hr1; symmetry; apply app_assoc |].
  split; [| auto].
  apply Forall_app. split.
  - eapply Forall_impl; [| exact Hf1].
    intros r (mv & Hin & Hrep). exists mv. split; [apply in_or_app; now left | assumption].
  - eapply Forall_impl; [| exact Hf2].
    intros r (mv & Hin & Hrep). exists mv. split; [apply in_or_app; now right | assumption].
Qed.

(** The file is at the target, or inside it. *)
Lemma landing_cases (E : Env) (w : World) (src target : Path) :
  landing E w src target = target
  \/ landing E w src target = joinpath target (name src).
Proof. unfold landing. destruct (target_is_dir E w target); auto. Qed.

Lemma process_file_logged (E : Env) (file_path : Path) (w : World) :
  logged_moves E w (snd (process_file E file_path w)).
Proof.
  destruct (process_file_cases E file_path w)
    as (category & w1 & Hcat & Hsame & Hcases).
  cbv zeta in Hcases.
  destruct Hcases as [(e & _ & Hp) | [(e & w2 & _ & _ & _ & Hp & Hsame2)
                     | [(e & w2 & _ & _ & Hp & Hl2 & Hr2) | (w2 & w3 & _ & _ & Hp & Hl3 & Hr3)]]];
    rewrite Hp; simpl.
  - now apply logged_moves_same.
  - now apply logged_moves_same.
  - eexists [], _.
    split; [unfold log_rows; now rewrite Hl2, app_nil_r |].
    split; [exact Hr2 |].
    split; [constructor | congruence].
  - eexists _, _.
    split; [unfold log_rows at 1; now rewrite Hl3 |].
    split; [exact Hr3 |].
    split; [| intros _; congruence].
    constructor; [| constructor]. eexists. split; [now left |].
    exists (now_isoformat E (clock_reads w)), category. cbv zeta.
    split; [reflexivity | apply landing_cases].
Qed.

Lemma loop_logged (E : Env) (entries : list Path) :
  forall w, logged_moves E w (snd (for_each entries (loop_body E) w)).
Proof.
  induction entries as [| file_path entries IH]; intros w; simpl.
  - apply logged_moves_same, same_files_refl.
  - unfold bind.
    assert (Hstep : logged_moves E w (snd (loop_body E file_path w))).
    { unfold loop_body. destruct (is_file E file_path).
      - apply process_file_logged.
      - apply logged_moves_same, same_files_refl. }
    destruct (loop_body E file_path w) as [[[] | e] w1]; simpl in *.
    + eapply logged_moves_trans; [exact Hstep | apply IH].
    + exact Hstep.
Qed.

Lemma process_downloads_logged (E : Env) (w : World) :
  logged_moves E w (snd (process_downloads E w)).
Proof.
  unfold process_downloads.
  set (w0 := snd (print (newline ++ lit "Scanning: " ++ path_str (DOWNLOADS E)) w)).
  rewrite (bind_ok _ _ w (a := tt) (w' := w0)) by reflexivity.
  assert (H0 : logged_moves E w w0) by (apply logged_moves_same; now repeat split).
  unfold bind at 1. unfold call.
  destruct (iterdir E (DOWNLOADS E)) as [entries | e]; [| exact H0].
  pose proof (loop_logged E entries w0) as Hloop.
  unfold bind.
  destruct (for_each entries (loop_body E) w0) as [[[] | e] w1];
    cbn [snd] in Hloop |- *.
  - apply (logged_moves_trans H0). apply (logged_moves_trans Hloop).
    apply logged_moves_same. now repeat split.
  - exact (logged_moves_trans H0 Hloop).
Qed.


Lemma init_log_file_run (E : Env) (w : World) :
  init_log_file E w =
  match log_file w with
  | Some _ => (Ok tt, w)
  | None =>
      match log_create_fault E w with
      | Some e => (Raise e, w)
      | None =>
          match header_write_fault E (with_log_file w (Some [])) with
          | Some e => (Raise e, with_log_file w (Some []))
          | None => (Ok tt, with_log_file w (Some [HEADER]))
          end
      end
  end.
Proof.
  unfold init_log_file, log_file_exists, open_write, write_header. run.
  destruct (log_file w); [reflexivity |]. simpl.
  destruct (log_create_fault E w); [reflexivity |].
  destruct (header_write_fault E (with_log_file w (Some []))); reflexivity.
Qed.

Lemma main_run (E : Env) (w : World) :
  main E w =
  let w0 :=
    with_stdout w
      (stdout w ++ [lit "Loading classification model..."; lit "Models ready."]) in
  match init_log_file E w0 with
  | (Ok _, w1) => process_downloads E w1
  | (Raise e, w1) => (Raise e, w1)
  end.
Proof.
  unfold main. run. simpl. rewrite <- app_assoc. simpl.
  destruct (init_log_file E _) as [[[] | e] w1]; reflexivity.
Qed.









(** Without that proviso: when the header row cannot be written into the
    new log at the first start, the empty log stays, the second start takes
    it for an existing log, and the rows it appends have no header row in
    front of them. *)
Example header_write_failure_leaves_no_header :
  let w1 := snd (main Scenario.header_unwritable Sample.fresh) in
  let w2 := snd (main Sample.calm w1) in
  fst (main Scenario.header_unwritable Sample.fresh)
  = Raise (Exception (lit "No space left on device"))
  /\ log_file w1 = Some []
  /\ List.length (log_rows w2) = 2
  /\ ~ In HEADER (log_rows w2).
Proof.
  cbv zeta. split; [vm_compute; reflexivity |].
  split; [vm_compute; reflexivity |].
  split; [vm_compute; reflexivity |].
  vm_compute. intros H.
  repeat (destruct H as [H | H]; [discriminate H |]). contradiction.
Qed.

(** * Further properties of the script *)

(** ** Blank text *)

Lemma lstrip_nil_iff (s : str) : lstrip s = [] <-> forallb isspace s = true.
Proof.
  induction s as [| c s IH]; simpl; [tauto |].
  destruct (isspace c); simpl; [exact IH |].
  split; discriminate.
Qed.

Lemma lstrip_keeps_nonspace (s : str) :
  existsb nonspace s = existsb nonspace (lstrip s).
Proof.
  induction s as [| c s IH]; simpl; [reflexivity |].
  unfold nonspace at 1. destruct (isspace c) eqn:Hc; simpl; [exact IH |].
  unfold nonspace at 1. now rewrite Hc.
Qed.

Lemma existsb_rev (A : Type) (f : A -> bool) (l : list A) :
  existsb f (rev l) = existsb f l.
Proof.
  induction l as [| x l IH]; simpl; [reflexivity |].
  rewrite existsb_app, IH. simpl. rewrite orb_false_r. apply orb_comm.
Qed.

Lemma existsb_nonspace_forallb (s : str) :
  existsb nonspace s = negb (forallb isspace s).
Proof.
  induction s as [| c s IH]; simpl; [reflexivity |].
  rewrite IH. unfold nonspace. now destruct (isspace c).
Qed.

Lemma strip_truthy (text : str) :
  truthy (strip text) = existsb nonspace text.
Proof.
  unfold strip, rstrip.
  rewrite (lstrip_keeps_nonspace text), <- (existsb_rev nonspace (lstrip text)).
  rewrite (lstrip_keeps_nonspace (rev (lstrip text))).
  destruct (lstrip (rev (lstrip text))) as [| c r] eqn:Hl; [reflexivity |].
  assert (Hc : isspace c = false).
  { destruct (isspace c) eqn:Hc; [| reflexivity].
    assert (Hn : forall s, lstrip s = c :: r -> False).
    { induction s as [| x s IHs]; simpl; [discriminate |].
      destruct (isspace x) eqn:Hx; [exact IHs |].
      intros H. inversion H; subst. congruence. }
    destruct (Hn _ Hl). }
  simpl. unfold nonspace at 1. rewrite Hc. simpl.
  destruct (rev r ++ [c]) eqn:Hr; [| reflexivity].
  destruct (rev r); discriminate.
Qed.

(** X1. The content tier is entered exactly when the extracted text holds
    a character that is not white space.  For a text of white space only the
    classifier is asked once, about the stem of the file name; otherwise the
    first thing it is asked about is the text. *)
Theorem blank_text_goes_to_filename_tier (E : Env) (file_path : Path)
  (text : str) (w : World) :
  let w' := snd (choose_category E file_path text w) in
  truthy (strip text) = existsb nonspace text
  /\ (forallb isspace text = true ->
      calls_since w w' = [(prefix 1000 (stem file_path), CATEGORIES)]
      /\ filename_tier_ran w w')
  /\ (existsb nonspace text = true ->
      hd_error (calls_since w w') = Some (prefix 1000 text, CATEGORIES)).
Proof.
  cbv zeta. split; [apply strip_truthy |]. split.
  - intros Hall.
    assert (Ht : truthy (strip text) = false)
      by (rewrite strip_truthy, existsb_nonspace_forallb, Hall; reflexivity).
    rewrite choose_category_run, Ht, filename_tier_run. cbv zeta.
    destruct (top_label (classifier E (prefix 1000 (stem file_path)) CATEGORIES));
      simpl; (split; [apply calls_since_app; reflexivity |]);
      unfold filename_tier_ran;
      erewrite printed_since_app
        by (simpl; rewrite <- !app_assoc; reflexivity);
      simpl; auto.
  - intros Hsome.
    assert (Ht : truthy (strip text) = true) by now rewrite strip_truthy.
    rewrite choose_category_run, Ht. cbv zeta.
    destruct (top_label (classifier E (prefix 1000 text) CATEGORIES)) as [label | e].
    + destruct (truthy label).
      * simpl. erewrite calls_since_app by reflexivity. reflexivity.
      * rewrite filename_tier_run. cbv zeta.
        destruct (top_label (classifier E (prefix 1000 (stem file_path)) CATEGORIES));
          simpl; erewrite calls_since_app
                   by (simpl; rewrite <- !app_assoc; reflexivity);
          reflexivity.
    + rewrite filename_tier_run. cbv zeta.
      destruct (top_label (classifier E (prefix 1000 (stem file_path)) CATEGORIES));
        simpl; erewrite calls_since_app
                 by (simpl; rewrite <- !app_assoc; reflexivity);
        reflexivity.
Qed.

Lemma blank_text_goes_to_filename_tier_witness :
  let blank := [32%N; 10%N; 9%N; 160%N; 8195%N] in
  let w' := snd (choose_category Sample.calm Sample.notes blank Sample.fresh) in
  calls_since Sample.fresh w' = [(prefix 1000 (lit "algebra_notes"), CATEGORIES)]
  /\ filename_tier_ran Sample.fresh w'.
Proof.
  cbv zeta.
  destruct (blank_text_goes_to_filename_tier Sample.calm Sample.notes
              [32%N; 10%N; 9%N; 160%N; 8195%N] Sample.fresh) as (_ & Hblank & _).
  apply Hblank. vm_compute. reflexivity.
Defined.

(** ** Relations kept by every step *)

Section Keeps.

Variable R : World -> World -> Prop.
Hypothesis R_refl : forall w, R w w.
Hypothesis R_trans : forall w1 w2 w3, R w1 w2 -> R w2 w3 -> R w1 w3.

Lemma keeps_ret (A : Type) (a : A) : keeps R (ret a).
Proof. intros w. apply R_refl. Qed.

Lemma keeps_raise (A : Type) (e : exn) : keeps R (@raise A e).
Proof. intros w. apply R_refl. Qed.

Lemma keeps_call (A : Type) (r : outcome A) : keeps R (call r).
Proof. intros w. apply R_refl. Qed.

Lemma keeps_bind (A B : Type) (m : M A) (k : A -> M B) :
  keeps R m -> (forall a, keeps R (k a)) -> keeps R (bind m k).
Proof.
  intros Hm Hk w. unfold bind. specialize (Hm w).
  destruct (m w) as [[a | e] w1]; simpl in *; [| assumption].
  eapply R_trans; [eassumption | apply Hk].
Qed.

Lemma keeps_try_except (A : Type) (body : M A) (handler : exn -> M A) :
  keeps R body -> (forall e, keeps R (handler e)) -> keeps R (try_except body handler).
Proof.
  intros Hb Hh w. unfold try_except. specialize (Hb w).
  destruct (body w) as [[a | e] w1]; simpl in *; [assumption |].
  eapply R_trans; [eassumption | apply Hh].
Qed.

Lemma keeps_if (A : Type) (b : bool) (m1 m2 : M A) :
  keeps R m1 -> keeps R m2 -> keeps R (if b then m1 else m2).
Proof. now destruct b. Qed.

Lemma keeps_for_each (A : Type) (xs : list A) (body : A -> M unit) :
  (forall x, keeps R (body x)) -> keeps R (for_each xs body).
Proof.
  intros Hb. induction xs as [| x xs IH]; simpl.
  - apply keeps_ret.
  - apply keeps_bind; auto.
Qed.

Lemma keeps_guarded (fault : World -> option exn) (effect : World -> World) :
  (forall w, R w (effect w)) -> keeps R (guarded fault effect).
Proof.
  intros He w. unfold guarded. destruct (fault w); simpl; auto.
Qed.

End Keeps.

Ltac keeps_tac Hr Ht :=
  cbv zeta;
  lazymatch goal with
  | |- keeps _ (bind _ _) =>
      apply (keeps_bind Ht); [keeps_tac Hr Ht | intros ?; keeps_tac Hr Ht]
  | |- keeps _ (try_except _ _) =>
      apply (keeps_try_except Ht); [keeps_tac Hr Ht | intros ?; keeps_tac Hr Ht]
  | |- keeps _ (if _ then _ else _) => apply keeps_if; keeps_tac Hr Ht
  | |- keeps _ (match ?x with _ => _ end) => destruct x; keeps_tac Hr Ht
  | |- keeps _ (ret _) => apply (keeps_ret _ Hr)
  | |- keeps _ (raise _) => apply (keeps_raise _ Hr)
  | |- keeps _ (call _) => apply (keeps_call _ Hr)
  | |- _ => auto
  end.

(** *** The classifier is only asked by [classify_text] *)

Lemma same_calls_refl (w : World) : same_calls w w.
Proof. reflexivity. Qed.

Lemma same_calls_trans (w1 w2 w3 : World) :
  same_calls w1 w2 -> same_calls w2 w3 -> same_calls w1 w3.
Proof. unfold same_calls. congruence. Qed.

Lemma same_calls_print (msg : str) : keeps same_calls (print msg).
Proof. intros w. reflexivity. Qed.

Lemma same_calls_ocr_pdf_pages (E : Env) (doc : PdfDoc) (page_nums : list nat) :
  forall text_output, keeps same_calls (ocr_pdf_pages E doc page_nums text_output).
Proof.
  induction page_nums as [| n page_nums IH]; intros text_output; simpl;
    keeps_tac same_calls_refl same_calls_trans.
Qed.

Lemma same_calls_ocr_pdf (E : Env) (file_path : Path) :
  keeps same_calls (ocr_pdf E file_path).
Proof.
  unfold ocr_pdf.
  pose proof (same_calls_ocr_pdf_pages E). pose proof same_calls_print.
  keeps_tac same_calls_refl same_calls_trans.
Qed.

Lemma same_calls_extract_text (E : Env) (file_path : Path) :
  keeps same_calls (extract_text_from_file E file_path).
Proof.
  unfold extract_text_from_file, extract_body.
  pose proof (same_calls_ocr_pdf E file_path). pose proof same_calls_print.
  keeps_tac same_calls_refl same_calls_trans.
Qed.

Lemma same_calls_move_file (E : Env) (file_path : Path) (category : str) :
  keeps same_calls (move_file E file_path category).
Proof.
  intros w. rewrite move_file_run. cbv zeta.
  destruct (mkdir_fault E w _); [reflexivity |].
  destruct (move_fault E w file_path _); reflexivity.
Qed.

Lemma same_calls_log_action (E : Env) (file_name category new_path : str) :
  keeps same_calls (log_action E file_name category new_path).
Proof.
  intros w. rewrite log_action_run. destruct (log_append_fault E w); reflexivity.
Qed.

(** One file's way through extraction into the controller. *)
Lemma categorise_run (E : Env) (file_path : Path) (w : World) :
  exists text w1,
    categorise E file_path w = choose_category E file_path text w1
    /\ fst (extract_text_from_file E file_path
              (snd (print (newline ++ arrow ++ lit " Processing: " ++ name file_path) w)))
       = Ok text
    /\ same_calls w w1.
Proof.
  set (w0 := snd (print (newline ++ arrow ++ lit " Processing: " ++ name file_path) w)).
  pose proof (same_calls_extract_text E file_path w0) as Hs.
  destruct (extract_text_total E file_path w0) as (text & w1 & Hx).
  rewrite Hx in Hs |- *. exists text, w1. split; [| split; [reflexivity | exact Hs]].
  unfold categorise.
  rewrite (bind_ok _ _ w (a := tt) (w' := w0)) by reflexivity.
  now rewrite (bind_ok _ _ w0 Hx).
Qed.

Lemma bounded_prefix (text : str) : bounded_call (prefix 1000 text, CATEGORIES).
Proof. split; [apply prefix_length | reflexivity]. Qed.

Lemma choose_category_calls (E : Env) (file_path : Path) (text : str) (w : World) :
  let calls := calls_since w (snd (choose_category E file_path text w)) in
  calls = [(prefix 1000 text, CATEGORIES)]
  \/ calls = [(prefix 1000 (stem file_path), CATEGORIES)]
  \/ calls = [(prefix 1000 text, CATEGORIES);
              (prefix 1000 (stem file_path), CATEGORIES)].
Proof.
  cbv zeta. rewrite choose_category_run.
  destruct (truthy (strip text)).
  - cbv zeta.
    destruct (top_label (classifier E (prefix 1000 text) CATEGORIES)) as [label | e].
    + destruct (truthy label).
      * left. simpl. now apply calls_since_app.
      * right. right. rewrite filename_tier_run. cbv zeta.
        destruct (top_label (classifier E (prefix 1000 (stem file_path)) CATEGORIES));
          simpl; apply calls_since_app; simpl; now rewrite <- app_assoc.
    + right. right. rewrite filename_tier_run. cbv zeta.
      destruct (top_label (classifier E (prefix 1000 (stem file_path)) CATEGORIES));
        simpl; apply calls_since_app; simpl; now rewrite <- app_assoc.
  - right. left. rewrite filename_tier_run. cbv zeta.
    destruct (top_label (classifier E (prefix 1000 (stem file_path)) CATEGORIES));
      simpl; now apply calls_since_app.
Qed.

(** X2. For one file the classifier is asked once or twice, never more:
    about the extracted text, about the stem of the file name, or about the
    text and then the stem.  Extraction itself asks nothing, and every
    question is at most 1000 characters long and carries the fixed label
    list. *)
Theorem classifier_asked_once_or_twice (E : Env) (file_path : Path) (w : World) :
  let calls := calls_since w (snd (categorise E file_path w)) in
  (exists text,
      fst (extract_text_from_file E file_path
             (snd (print (newline ++ arrow ++ lit " Processing: " ++ name file_path) w)))
      = Ok text
      /\ (calls = [(prefix 1000 text, CATEGORIES)]
          \/ calls = [(prefix 1000 (stem file_path), CATEGORIES)]
          \/ calls = [(prefix 1000 text, CATEGORIES);
                      (prefix 1000 (stem file_path), CATEGORIES)]))
  /\ 1 <= List.length calls <= 2
  /\ Forall bounded_call calls.
Proof.
  cbv zeta.
  destruct (categorise_run E file_path w) as (text & w1 & Hrun & Hx & Hs).
  rewrite Hrun.
  assert (Heq : calls_since w (snd (choose_category E file_path text w1))
                = calls_since w1 (snd (choose_category E file_path text w1)))
    by (unfold calls_since; now rewrite Hs).
  rewrite Heq.
  pose proof (choose_category_calls E file_path text w1) as Hc. cbv zeta in Hc.
  split; [exists text; split; assumption |].
  destruct Hc as [-> | [-> | ->]]; simpl; (split; [lia |]);
    repeat (apply Forall_cons; [apply bounded_prefix |]); apply Forall_nil.
Qed.

(** X3. Whatever the text of a file and whichever tier decides, the
    category a file is given is one of the configured labels (and so is
    never empty), for a classifier that ranks the labels it is given. *)
Theorem category_is_a_configured_label (E : Env) (file_path : Path) (w : World) :
  ranks_candidates E ->
  exists category w',
    categorise E file_path w = (Ok category, w')
    /\ In category CATEGORIES
    /\ truthy category = true.
Proof.
  intros Hrank.
  destruct (categorise_run E file_path w) as (text & w1 & Hrun & _ & _).
  rewrite Hrun.
  assert (Hf : forall w2, exists category w',
               filename_tier E file_path w2 = (Ok category, w')
               /\ In category CATEGORIES /\ truthy category = true).
  { intros w2. rewrite filename_tier_run. cbv zeta.
    destruct (top_label (classifier E (prefix 1000 (stem file_path)) CATEGORIES))
      as [label | e] eqn:Hl; do 2 eexists; (split; [reflexivity |]).
    - pose proof (@top_label_candidate E _ _ Hrank Hl) as Hin.
      split; [assumption | now apply categories_truthy].
    - split; [| reflexivity]. unfold CATEGORIES, DEFAULT_CATEGORY. simpl. tauto. }
  rewrite choose_category_run.
  destruct (truthy (strip text)); [| apply Hf]. cbv zeta.
  destruct (top_label (classifier E (prefix 1000 text) CATEGORIES))
    as [label | e] eqn:Hl; [| apply Hf].
  pose proof (@top_label_candidate E _ _ Hrank Hl) as Hin.
  rewrite (categories_truthy Hin). do 2 eexists.
  split; [reflexivity |]. split; [assumption | now apply categories_truthy].
Qed.

Lemma category_is_a_configured_label_witness :
  exists category w',
    categorise Sample.calm Sample.archive Sample.fresh = (Ok category, w')
    /\ In category CATEGORIES
    /\ truthy category = true.
Proof.
  apply category_is_a_configured_label. apply sample_classifier_ranks.
Defined.

(** *** Every question put to the classifier, over a whole run *)

Lemma calls_bounded_refl (w : World) : calls_bounded w w.
Proof. exists []. split; [now rewrite app_nil_r | constructor]. Qed.

Lemma calls_bounded_trans (w1 w2 w3 : World) :
  calls_bounded w1 w2 -> calls_bounded w2 w3 -> calls_bounded w1 w3.
Proof.
  intros (c1 & H1 & F1) (c2 & H2 & F2). exists (c1 ++ c2).
  split; [rewrite H2, H1; symmetry; apply app_assoc | now apply Forall_app].
Qed.

Lemma calls_bounded_of_same (A : Type) (m : M A) :
  keeps same_calls m -> keeps calls_bounded m.
Proof.
  intros H w. specialize (H w). unfold same_calls in H.
  exists []. split; [now rewrite app_nil_r | constructor].
Qed.

Lemma calls_bounded_classify_text (E : Env) (text : str) :
  keeps calls_bounded (classify_text E text).
Proof.
  intros w. rewrite classify_text_run. simpl.
  eexists. split; [reflexivity |].
  constructor; [apply bounded_prefix | constructor].
Qed.

Lemma calls_bounded_choose_category (E : Env) (file_path : Path) (text : str) :
  keeps calls_bounded (choose_category E file_path text).
Proof.
  unfold choose_category.
  pose proof (calls_bounded_classify_text E).
  assert (forall msg, keeps calls_bounded (print msg))
    by (intros msg; apply calls_bounded_of_same, same_calls_print).
  keeps_tac calls_bounded_refl calls_bounded_trans.
Qed.

Lemma calls_bounded_process_file (E : Env) (file_path : Path) :
  keeps calls_bounded (process_file E file_path).
Proof.
  unfold process_file.
  pose proof (calls_bounded_choose_category E file_path).
  pose proof (calls_bounded_of_same (same_calls_extract_text E file_path)).
  assert (forall c, keeps calls_bounded (move_file E file_path c))
    by (intros c; apply calls_bounded_of_same, same_calls_move_file).
  assert (forall n c p, keeps calls_bounded (log_action E n c p))
    by (intros n c p; apply calls_bounded_of_same, same_calls_log_action).
  assert (forall msg, keeps calls_bounded (print msg))
    by (intros msg; apply calls_bounded_of_same, same_calls_print).
  keeps_tac calls_bounded_refl calls_bounded_trans.
Qed.

Lemma calls_bounded_process_downloads (E : Env) :
  keeps calls_bounded (process_downloads E).
Proof.
  unfold process_downloads.
  assert (forall msg, keeps calls_bounded (print msg))
    by (intros msg; apply calls_bounded_of_same, same_calls_print).
  assert (forall entries, keeps calls_bounded (for_each entries (loop_body E))).
  { intros entries.
    apply (keeps_for_each calls_bounded_refl calls_bounded_trans).
    intros file_path. unfold loop_body.
    pose proof (calls_bounded_process_file E file_path).
    keeps_tac calls_bounded_refl calls_bounded_trans. }
  keeps_tac calls_bounded_refl calls_bounded_trans.
Qed.

Lemma same_calls_init_log_file (E : Env) : keeps same_calls (init_log_file E).
Proof.
  intros w. rewrite init_log_file_run.
  destruct (log_file w); [reflexivity |].
  destruct (log_create_fault E w); [reflexivity |].
  destruct (header_write_fault E (with_log_file w (Some []))); reflexivity.
Qed.

(** X4. Over a whole run of the script, calls already made stay on
    record and every call added has an input of at most 1000 characters and
    the fixed label list: the classifier is never given a longer text or
    other labels. *)
Theorem every_call_is_bounded (E : Env) (w : World) :
  let w' := snd (main E w) in
  classifier_calls w' = classifier_calls w ++ calls_since w w'
  /\ Forall bounded_call (calls_since w w')
  /\ Forall (fun c => fst c = prefix 1000 (fst c)) (calls_since w w').
Proof.
  cbv zeta.
  assert (Hk : keeps calls_bounded (main E)).
  { unfold main.
    pose proof (calls_bounded_process_downloads E).
    pose proof (calls_bounded_of_same (same_calls_init_log_file E)).
    assert (forall msg, keeps calls_bounded (print msg))
      by (intros msg; apply calls_bounded_of_same, same_calls_print).
    keeps_tac calls_bounded_refl calls_bounded_trans. }
  destruct (Hk w) as (calls & Hc & Hf).
  rewrite (calls_since_app w _ calls Hc).
  split; [assumption |]. split; [assumption |].
  eapply Forall_impl; [| exact Hf].
  intros c [Hlen _]. symmetry. now apply prefix_short.
Qed.

(** ** Extraction, format by format *)

Lemma occurs_in_join (sep t : str) (parts : list str) :
  In t parts -> occurs_in t (join sep parts).
Proof.
  induction parts as [| p rest IH]; intros Hin; [contradiction |].
  destruct Hin as [-> | Hin].
  - destruct rest as [| q rest].
    + exists [], []. simpl. now rewrite app_nil_r.
    + exists [], (sep ++ join sep (q :: rest)). reflexivity.
  - destruct rest as [| q rest]; [contradiction |].
    destruct (IH Hin) as (before & after & Heq).
    exists (p ++ sep ++ before), after.
    change (join sep (p :: q :: rest)) with (p ++ sep ++ join sep (q :: rest)).
    rewrite Heq, <- !app_assoc. reflexivity.
Qed.

Lemma extract_body_txt (E : Env) (file_path : Path) :
  extract_body E file_path (lit ".txt") = call (read_text E file_path).
Proof. reflexivity. Qed.

Lemma extract_body_pdf (E : Env) (file_path : Path) :
  extract_body E file_path (lit ".pdf") =
  (doc <- call (fitz_open E file_path) ;;
   page_texts <- call (collect (map get_text (pdf_pages doc))) ;;
   if truthy (strip (join newline page_texts)) then ret (join newline page_texts)
   else
     print (lit "No text found in PDF, running OCR...") ;;
     ocr_pdf E file_path).
Proof. reflexivity. Qed.

Lemma extract_body_docx (E : Env) (file_path : Path) :
  extract_body E file_path (lit ".docx") =
  (paragraphs <- call (docx_paragraphs E file_path) ;;
   ret (join newline paragraphs)).
Proof. reflexivity. Qed.

Lemma extract_body_image (E : Env) (file_path : Path) (ext : str) :
  In ext image_suffixes ->
  extract_body E file_path ext =
  (print (lit "Running OCR on image: " ++ name file_path) ;;
   present <- call (path_exists E file_path) ;;
   empty_or_missing <-
     (if negb present then ret true
      else size <- call (st_size E file_path) ;; ret (N.eqb size 0)) ;;
   if empty_or_missing then
     print (lit "[!] Image file is empty or missing: " ++ path_str file_path) ;;
     ret []
   else
     result <- call (readtext E (FromFile (path_str file_path))) ;;
     ret (join newline result)).
Proof.
  intros Hext. unfold extract_body.
  assert (Hi : in_strs ext image_suffixes = true) by now apply in_strs_In.
  assert (Hne : forall s,
             In s [lit ".txt"; lit ".pdf"; lit ".docx"] -> str_eqb ext s = false).
  { intros s Hin. apply str_eqb_neq. intros Heq. rewrite Heq in Hext.
    unfold image_suffixes in Hext. simpl in Hin, Hext.
    destruct Hin as [<- | [<- | [<- | []]]];
      repeat (destruct Hext as [Hext | Hext]; [discriminate Hext |]);
      contradiction. }
  rewrite !Hne by (simpl; tauto). now rewrite Hi.
Qed.

Lemma get_text_collect (pages : list PdfPage) (texts : list str) :
  Forall2 (fun page t => get_text page = Ok t) pages texts ->
  collect (map get_text pages) = Ok texts.
Proof.
  intros H. apply collect_Forall2. induction H; simpl; constructor; auto.
Qed.

Lemma pdf_text_layer (E : Env) (file_path : Path) (w : World) (doc : PdfDoc)
  (texts : list str) :
  lower E (suffix file_path) = lit ".pdf" ->
  fitz_open E file_path = Ok doc ->
  Forall2 (fun page t => get_text page = Ok t) (pdf_pages doc) texts ->
  existsb nonspace (join newline texts) = true ->
  extract_text_from_file E file_path w = (Ok (join newline texts), w).
Proof.
  intros Hext Ho Ht Hs.
  rewrite extract_text_run, Hext, extract_body_pdf. run.
  rewrite Ho, (get_text_collect Ht), strip_truthy, Hs. reflexivity.
Qed.

(** X5. A PDF whose text layer holds anything but white space is read
    from that layer alone: the result is the page texts joined by newlines,
    so the text of every page occurs in it unchanged; nothing is printed
    and the OCR reader has no part in the result. *)
Theorem pdf_text_layer_is_returned (E : Env) (file_path : Path) (w : World)
  (doc : PdfDoc) (texts : list str) :
  lower E (suffix file_path) = lit ".pdf" ->
  fitz_open E file_path = Ok doc ->
  Forall2 (fun page t => get_text page = Ok t) (pdf_pages doc) texts ->
  existsb nonspace (join newline texts) = true ->
  extract_text_from_file E file_path w = (Ok (join newline texts), w)
  /\ (forall t, In t texts -> occurs_in t (join newline texts))
  /\ (forall ocr,
        extract_text_from_file (Sample.with_readtext E ocr) file_path w
        = (Ok (join newline texts), w)).
Proof.
  intros Hext Ho Ht Hs.
  split; [exact (@pdf_text_layer E file_path w doc texts Hext Ho Ht Hs) |].
  split; [intros t; apply occurs_in_join |].
  intros ocr.
  exact (@pdf_text_layer (Sample.with_readtext E ocr) file_path w doc texts
           Hext Ho Ht Hs).
Qed.

Lemma pdf_text_layer_is_returned_witness :
  extract_text_from_file Scenario.typed_pdf Scenario.report Sample.fresh
  = (Ok (lit "Chapter 1" ++ newline ++ lit "Limits"), Sample.fresh)
  /\ occurs_in (lit "Limits") (lit "Chapter 1" ++ newline ++ lit "Limits").
Proof.
  destruct (@pdf_text_layer_is_returned Scenario.typed_pdf Scenario.report Sample.fresh
              (mkPdfDoc [Scenario.typed_page (lit "Chapter 1");
                         Scenario.typed_page (lit "Limits")])
              [lit "Chapter 1"; lit "Limits"])
    as (Hres & Hocc & _).
  - vm_compute. reflexivity.
  - reflexivity.
  - repeat constructor.
  - vm_compute. reflexivity.
  - split; [exact Hres |]. apply (Hocc (lit "Limits")). simpl. tauto.
Defined.

(** X6. A PDF whose text layer is empty or white space only is handed to
    the OCR helper after one line on the console, and the text extracted is
    whatever the helper returns: the recognised pages when every page goes
    through, the empty string for a document without pages. *)
Theorem blank_pdf_goes_to_ocr (E : Env) (file_path : Path) (w : World)
  (doc : PdfDoc) (texts : list str) :
  lower E (suffix file_path) = lit ".pdf" ->
  fitz_open E file_path = Ok doc ->
  Forall2 (fun page t => get_text page = Ok t) (pdf_pages doc) texts ->
  forallb isspace (join newline texts) = true ->
  extract_text_from_file E file_path w
  = ocr_pdf E file_path
      (snd (print (lit "No text found in PDF, running OCR...") w))
  /\ (forall fragments,
        Forall2 (fun page result => page_fragments E page = Ok result)
          (pdf_pages doc) fragments ->
        fst (extract_text_from_file E file_path w)
        = Ok (join blank_line (map (join newline) fragments)))
  /\ (pdf_pages doc = [] -> fst (extract_text_from_file E file_path w) = Ok []).
Proof.
  intros Hext Ho Ht Hs.
  assert (Hrun : extract_text_from_file E file_path w
                 = ocr_pdf E file_path
                     (snd (print (lit "No text found in PDF, running OCR...") w))).
  { rewrite extract_text_run, Hext, extract_body_pdf. run.
    rewrite Ho, (get_text_collect Ht), strip_truthy, existsb_nonspace_forallb, Hs.
    cbn [negb].
    match goal with
    | |- context [ocr_pdf E file_path ?w0] =>
        destruct (ocr_pdf_total E file_path w0) as (text & w1 & Hocr)
    end.
    cbv beta in Hocr |- *. rewrite Hocr. reflexivity. }
  split; [exact Hrun |]. rewrite Hrun, ocr_pdf_run, Ho. cbv zeta. split.
  - intros fragments Hf.
    assert (Hc : collect (map (page_fragments E) (pdf_pages doc)) = Ok fragments).
    { apply collect_Forall2. clear - Hf. induction Hf; simpl; constructor; auto. }
    now rewrite Hc.
  - intros Hnil. rewrite Hnil. reflexivity.
Qed.

Lemma blank_pdf_goes_to_ocr_witness :
  fst (extract_text_from_file Sample.calm Scenario.report Sample.fresh)
  = Ok (lit "line one" ++ newline ++ lit "line two" ++ blank_line
        ++ lit "line one" ++ newline ++ lit "line two")
  /\ fst (extract_text_from_file Scenario.empty_pdf Scenario.report Sample.fresh)
     = Ok [].
Proof.
  split.
  - destruct (@blank_pdf_goes_to_ocr Sample.calm Scenario.report Sample.fresh
                (mkPdfDoc [Sample.scanned_page; Sample.scanned_page]) [[]; []])
      as (_ & Hfr & _).
    + vm_compute. reflexivity.
    + reflexivity.
    + repeat constructor.
    + vm_compute. reflexivity.
    + rewrite (Hfr [[lit "line one"; lit "line two"]; [lit "line one"; lit "line two"]]).
      * reflexivity.
      * repeat constructor.
  - destruct (@blank_pdf_goes_to_ocr Scenario.empty_pdf Scenario.report Sample.fresh
                (mkPdfDoc []) [])
      as (_ & _ & Hnil).
    + vm_compute. reflexivity.
    + reflexivity.
    + constructor.
    + reflexivity.
    + apply Hnil. reflexivity.
Defined.

(** X7. An image file that is missing or has size zero gives the empty
    text after two lines on the console, whatever the OCR reader would have
    answered: the reader is not consulted. *)
Theorem empty_image_skips_ocr (E : Env) (file_path : Path) (w : World)
  (ocr : OcrSource -> outcome (list str)) :
  In (lower E (suffix file_path)) image_suffixes ->
  path_exists E file_path = Ok false
  \/ (path_exists E file_path = Ok true /\ st_size E file_path = Ok 0%N) ->
  extract_text_from_file (Sample.with_readtext E ocr) file_path w
  = (Ok [],
     with_stdout w
       (stdout w
        ++ [lit "Running OCR on image: " ++ name file_path;
            lit "[!] Image file is empty or missing: " ++ path_str file_path])).
Proof.
  intros Hext Hcase. rewrite extract_text_run.
  assert (Hext' : In (lower (Sample.with_readtext E ocr) (suffix file_path))
                    image_suffixes) by exact Hext.
  rewrite (@extract_body_image (Sample.with_readtext E ocr) file_path _ Hext').
  run. cbn [path_exists st_size Sample.with_readtext].
  destruct Hcase as [Hp | [Hp Hs]].
  - rewrite Hp. cbn [negb]. cbn [stdout with_stdout].
    rewrite <- app_assoc. reflexivity.
  - rewrite Hp. cbn [negb]. rewrite Hs. cbn [N.eqb stdout with_stdout].
    rewrite <- app_assoc. reflexivity.
Qed.

Lemma empty_image_skips_ocr_witness :
  fst (extract_text_from_file
         (Sample.with_readtext Scenario.empty_images
            (fun _ => Ok [lit "text the reader would find"]))
         Scenario.picture Sample.fresh)
  = Ok [].
Proof.
  rewrite (@empty_image_skips_ocr Scenario.empty_images Scenario.picture Sample.fresh).
  - reflexivity.
  - vm_compute. tauto.
  - right. split; reflexivity.
Defined.

(** X8. What a successful read becomes: the content of a .txt file is
    returned unchanged and nothing is printed; the paragraphs of a .docx
    file are joined by newlines, so each of them occurs in the text; the
    fragments recognised on an existing, non-empty image are joined by
    newlines after one line on the console. *)
Theorem extraction_by_format (E : Env) (file_path : Path) (w : World) :
  (forall content,
      lower E (suffix file_path) = lit ".txt" ->
      read_text E file_path = Ok content ->
      extract_text_from_file E file_path w = (Ok content, w))
  /\ (forall paragraphs,
        lower E (suffix file_path) = lit ".docx" ->
        docx_paragraphs E file_path = Ok paragraphs ->
        extract_text_from_file E file_path w = (Ok (join newline paragraphs), w)
        /\ forall p, In p paragraphs -> occurs_in p (join newline paragraphs))
  /\ (forall size fragments,
        In (lower E (suffix file_path)) image_suffixes ->
        path_exists E file_path = Ok true ->
        st_size E file_path = Ok size ->
        size <> 0%N ->
        readtext E (FromFile (path_str file_path)) = Ok fragments ->
        extract_text_from_file E file_path w
        = (Ok (join newline fragments),
           with_stdout w
             (stdout w ++ [lit "Running OCR on image: " ++ name file_path]))).
Proof.
  split; [| split].
  - intros content Hext Hr. rewrite extract_text_run, Hext, extract_body_txt.
    run. now rewrite Hr.
  - intros paragraphs Hext Hr. split.
    + rewrite extract_text_run, Hext, extract_body_docx. run. now rewrite Hr.
    + intros p. apply occurs_in_join.
  - intros size fragments Hext Hp Hs Hsize Hr.
    assert (Hz : N.eqb size 0 = false) by now apply N.eqb_neq.
    rewrite extract_text_run, (@extract_body_image E file_path _ Hext).
    run. rewrite Hp. cbn [negb]. rewrite Hs, Hz, Hr. reflexivity.
Qed.

Lemma extraction_by_format_witness :
  extract_text_from_file Sample.calm Sample.notes Sample.fresh
  = (Ok (lit "Solving quadratic equations and derivatives"), Sample.fresh)
  /\ fst (extract_text_from_file Sample.calm Scenario.picture Sample.fresh)
     = Ok (lit "line one" ++ newline ++ lit "line two").
Proof.
  destruct (extraction_by_format Sample.calm Sample.notes Sample.fresh)
    as (Htxt & _).
  destruct (extraction_by_format Sample.calm Scenario.picture Sample.fresh)
    as (_ & _ & Himg).
  split.
  - apply Htxt; vm_compute; reflexivity.
  - rewrite (Himg 12%N [lit "line one"; lit "line two"]).
    + reflexivity.
    + vm_compute. tauto.
    + reflexivity.
    + reflexivity.
    + discriminate.
    + reflexivity.
Defined.

(** ** Where a file is moved to *)

Lemma take_until_stops (c : codepoint) (a b : str) :
  ~ In c a -> take_until c (a ++ c :: b) = a.
Proof.
  induction a as [| x a IH]; intros Hn; simpl.
  - now rewrite N.eqb_refl.
  - destruct (N.eqb x c) eqn:Hx.
    + apply N.eqb_eq in Hx. exfalso. apply Hn. now left.
    + f_equal. apply IH. intros H. apply Hn. now right.
Qed.

Lemma take_until_free (c : codepoint) (s : str) : ~ In c (take_until c s).
Proof.
  induction s as [| x s IH]; simpl; [tauto |].
  destruct (N.eqb x c) eqn:Hx; simpl; [tauto |].
  apply N.eqb_neq in Hx. intros [H | H]; [congruence | contradiction].
Qed.

Lemma name_has_no_slash (p : Path) : ~ In slash (name p).
Proof.
  unfold name. intros H. apply in_rev in H. now apply take_until_free in H.
Qed.

Lemma name_joinpath (base : Path) (segment : str) :
  segment <> [] -> ~ In slash segment -> name (joinpath base segment) = segment.
Proof.
  intros Hne Hfree. destruct segment as [| c rest] eqn:Hs; [congruence |].
  rewrite <- Hs in *. unfold joinpath. rewrite Hs at 1.
  destruct (N.eqb c slash) eqn:Hc.
  { apply N.eqb_eq in Hc. exfalso. apply Hfree. rewrite Hs. now left. }
  assert (Hrev : ~ In slash (rev segment))
    by (intros H; apply Hfree; now apply in_rev).
  unfold name. destruct (ends_with_slash base) eqn:He.
  - unfold ends_with_slash in He.
    destruct (rev base) as [| x l] eqn:Hb; [discriminate |].
    apply N.eqb_eq in He. subst x.
    rewrite rev_app_distr, Hb, (@take_until_stops _ _ _ Hrev). apply rev_involutive.
  - rewrite !rev_app_distr. simpl. rewrite <- app_assoc. simpl.
    rewrite (@take_until_stops _ _ _ Hrev). apply rev_involutive.
Qed.

Lemma joinpath_longer (base : Path) (segment : str) :
  segment <> [] -> ~ In slash segment -> joinpath base segment <> base.
Proof.
  intros Hne Hfree Heq. apply (f_equal (@List.length codepoint)) in Heq.
  destruct segment as [| c rest]; [congruence |]. unfold joinpath in Heq.
  destruct (N.eqb c slash) eqn:Hc.
  { apply N.eqb_eq in Hc. apply Hfree. now left. }
  destruct (ends_with_slash base); rewrite !length_app in Heq; simpl in Heq; lia.
Qed.

(** X9. The path the relocator returns for a moved file is the folder of
    the category under Documents followed by the name the file had in
    Downloads, so name, stem and suffix of that path are those of the file.
    The file itself is at that path, or, when a directory already stood
    there, inside that directory under the same name: it keeps its name
    either way, but in the second case it is not at the path returned. *)
Theorem moved_file_keeps_its_name (E : Env) (file_path : Path) (category : str)
  (w w' : World) (new_path : str) :
  name file_path <> [] ->
  move_file E file_path category w = (Ok (Some new_path), w') ->
  new_path = path_str (joinpath (joinpath (DOCUMENTS E) category) (name file_path))
  /\ name new_path = name file_path
  /\ stem new_path = stem file_path
  /\ suffix new_path = suffix file_path
  /\ relocated w' = relocated w ++ [(file_path, landing E w file_path new_path)]
  /\ name (landing E w file_path new_path) = name file_path
  /\ (target_is_dir E w new_path = false ->
      landing E w file_path new_path = new_path)
  /\ (target_is_dir E w new_path = true ->
      landing E w file_path new_path = joinpath new_path (name file_path)
      /\ landing E w file_path new_path <> new_path).
Proof.
  intros Hname Hmove. rewrite move_file_run in Hmove. cbv zeta in Hmove.
  destruct (mkdir_fault E w _); [discriminate |].
  destruct (move_fault E w file_path _); [discriminate |].
  injection Hmove as <- <-. unfold path_str.
  set (target := joinpath (joinpath (DOCUMENTS E) category) (name file_path)).
  assert (Hn : name target = name file_path)
    by (apply name_joinpath; [assumption | apply name_has_no_slash]).
  split; [reflexivity |]. split; [exact Hn |].
  split; [unfold stem, suffix_split; now rewrite Hn |].
  split; [unfold suffix, suffix_split; now rewrite Hn |].
  split; [reflexivity |].
  unfold landing. destruct (target_is_dir E w target).
  - split; [apply name_joinpath; [assumption | apply name_has_no_slash] |].
    split; [discriminate |]. intros _. split; [reflexivity |].
    apply joinpath_longer; [assumption | apply name_has_no_slash].
  - split; [exact Hn |]. split; [reflexivity | discriminate].
Qed.

Lemma moved_file_keeps_its_name_witness :
  let w := Sample.fresh in
  let target := lit "/home/u/Documents/Math/algebra_notes.txt" in
  fst (move_file Scenario.name_taken_by_folder Sample.notes (lit "Math") w)
  = Ok (Some target)
  /\ name target = name Sample.notes
  /\ landing Scenario.name_taken_by_folder w Sample.notes target
     = lit "/home/u/Documents/Math/algebra_notes.txt/algebra_notes.txt"
  /\ landing Scenario.name_taken_by_folder w Sample.notes target <> target.
Proof.
  cbv zeta.
  destruct (@moved_file_keeps_its_name Scenario.name_taken_by_folder Sample.notes
              (lit "Math") Sample.fresh
              (snd (move_file Scenario.name_taken_by_folder Sample.notes (lit "Math")
                      Sample.fresh))
              (lit "/home/u/Documents/Math/algebra_notes.txt"))
    as (_ & Hn & _ & _ & _ & _ & _ & Hdir).
  - vm_compute. discriminate.
  - vm_compute. reflexivity.
  - destruct Hdir as [Hin Hne]; [vm_compute; reflexivity |].
    split; [vm_compute; reflexivity |]. split; [exact Hn |].
    split; [rewrite Hin; vm_compute; reflexivity | exact Hne].
Defined.

(** ** Failures that are not caught *)

(** X10. Creating the category folder is not guarded: when it raises, the
    relocator raises too instead of signalling failure, the processing of
    the file and the loop end with that exception, and neither the file nor
    the log has been touched. *)
Theorem folder_creation_failure_aborts (E : Env) (file_path : Path)
  (rest : list Path) (w w1 : World) (category : str) (e : exn) :
  is_file E file_path = true ->
  categorise E file_path w = (Ok category, w1) ->
  mkdir_fault E w1 (joinpath (DOCUMENTS E) category) = Some e ->
  move_file E file_path category w1 = (Raise e, w1)
  /\ process_file E file_path w = (Raise e, w1)
  /\ for_each (file_path :: rest) (loop_body E) w = (Raise e, w1)
  /\ relocated w1 = relocated w
  /\ log_file w1 = log_file w.
Proof.
  intros Hfile Hcat Hmk.
  assert (Hmove : move_file E file_path category w1 = (Raise e, w1))
    by (rewrite move_file_run; cbv zeta; now rewrite Hmk).
  assert (Hp : process_file E file_path w = (Raise e, w1))
    by (rewrite process_file_run, Hcat, Hmove; reflexivity).
  pose proof (quiet_categorise E file_path w) as (Hl & Hr & _).
  rewrite Hcat in Hl, Hr.
  split; [exact Hmove |]. split; [exact Hp |]. split; [| split; assumption].
  simpl. apply bind_raise. unfold loop_body. now rewrite Hfile.
Qed.

Lemma folder_creation_failure_aborts_witness :
  fst (process_downloads Scenario.folder_denied Sample.fresh)
  = Raise (Exception (lit "Permission denied"))
  /\ relocated (snd (process_file Scenario.folder_denied Sample.notes Sample.fresh)) = [].
Proof.
  destruct (@folder_creation_failure_aborts Scenario.folder_denied Sample.notes
              [Sample.archive] Sample.fresh
              (snd (categorise Scenario.folder_denied Sample.notes Sample.fresh))
              (lit "Math") (Exception (lit "Permission denied")))
    as (_ & Hp & _ & Hr & _); try (vm_compute; reflexivity).
  split; [vm_compute; reflexivity |]. rewrite Hp. exact Hr.
Defined.

(** X11. Nothing guards the start of the script: when the log is absent
    and cannot be created, the script ends with that exception right after
    the models are loaded, before Downloads is scanned; and when Downloads
    cannot be listed, the run ends with that exception after the line that
    announces the scan. *)
Theorem start_failures_end_the_script (E : Env) (w : World) :
  let loaded :=
    with_stdout w
      (stdout w ++ [lit "Loading classification model..."; lit "Models ready."]) in
  (forall e,
      log_file w = None ->
      log_create_fault E loaded = Some e ->
      main E w = (Raise e, loaded))
  /\ (forall e,
        iterdir E (DOWNLOADS E) = Raise e ->
        process_downloads E w
        = (Raise e,
           with_stdout w
             (stdout w ++ [newline ++ lit "Scanning: " ++ path_str (DOWNLOADS E)]))).
Proof.
  cbv zeta. split.
  - intros e Hw Hc. rewrite main_run. cbv zeta. rewrite init_log_file_run.
    cbn [log_file with_stdout]. now rewrite Hw, Hc.
  - intros e Hdir. unfold process_downloads. run. now rewrite Hdir.
Qed.

Lemma start_failures_end_the_script_witness :
  fst (main Scenario.create_denied Sample.fresh)
  = Raise (Exception (lit "Permission denied"))
  /\ classifier_calls (snd (main Scenario.create_denied Sample.fresh)) = []
  /\ fst (process_downloads Scenario.no_downloads Sample.fresh)
     = Raise (Exception (lit "No such file or directory")).
Proof.
  destruct (start_failures_end_the_script Scenario.create_denied Sample.fresh)
    as (Hlog & _).
  destruct (start_failures_end_the_script Scenario.no_downloads Sample.fresh)
    as (_ & Hdir).
  rewrite (Hlog (Exception (lit "Permission denied"))) by reflexivity.
  rewrite (Hdir (Exception (lit "No such file or directory"))) by reflexivity.
  repeat split.
Defined.

(** ** The loop over Downloads *)

Lemma loop_over_regular_files (E : Env) (entries : list Path) :
  forall w,
    for_each entries (loop_body E) w
    = for_each (filter (is_file E) entries) (process_file E) w.
Proof.
  induction entries as [| entry entries IH]; intros w; [reflexivity |].
  simpl. unfold loop_body at 1. destruct (is_file E entry); simpl.
  - unfold bind. destruct (process_file E entry w) as [[[] | e] w1];
      [apply IH | reflexivity].
  - apply IH.
Qed.

(** X12. Entries of Downloads that are not regular files are passed over
    without any effect: the loop does exactly what processing the regular
    files alone, in the same order, would do. *)
Theorem only_regular_files_are_processed (E : Env) (entries : list Path) (w : World) :
  for_each entries (loop_body E) w
  = for_each (filter (is_file E) entries) (process_file E) w
  /\ (forall entry, is_file E entry = false -> loop_body E entry w = (Ok tt, w)).
Proof.
  split; [apply loop_over_regular_files |].
  intros entry Hf. unfold loop_body. now rewrite Hf.
Qed.

Lemma reports_names (E : Env) (moves : list (Path * Path)) (rows : list row) :
  Forall2 (reports E) moves rows ->
  map row_file_name rows = map (fun mv => name (fst mv)) moves.
Proof.
  induction 1 as [| mv r moves rows (ts & cat & -> & _) _ IH]; simpl.
  - reflexivity.
  - now rewrite IH.
Qed.

Lemma process_file_soft (E : Env) (file_path : Path) (w : World) :
  soft_faults_only E ->
  exists w' rows moves,
    process_file E file_path w = (Ok tt, w')
    /\ log_rows w' = log_rows w ++ rows
    /\ relocated w' = relocated w ++ moves
    /\ Forall2 (reports E) moves rows
    /\ (forall mv, In mv moves -> fst mv = file_path)
    /\ (moves_never_fail E -> map fst moves = [file_path]).
Proof.
  intros [Hmk Hap].
  destruct (process_file_cases E file_path w)
    as (category & w1 & Hcat & _ & Hcases).
  cbv zeta in Hcases.
  destruct Hcases as [(e & Hm & _) | [(e & w2 & _ & Hmv & _ & Hp & Hl2 & Hr2 & _)
                     | [(e & w2 & _ & Ha & _) | (w2 & w3 & _ & _ & Hp & Hl3 & Hr3)]]].
  - rewrite Hmk in Hm. discriminate.
  - exists w2, [], []. rewrite !app_nil_r. unfold log_rows. rewrite Hl2.
    repeat split; auto; try constructor.
    + intros mv [].
    + intros Hnever. rewrite Hnever in Hmv. discriminate.
  - rewrite Hap in Ha. discriminate.
  - do 3 eexists. split; [exact Hp |].
    split; [unfold log_rows at 1; rewrite Hl3; reflexivity |].
    split; [exact Hr3 |].
    split.
    { constructor; [| constructor].
      exists (now_isoformat E (clock_reads w)), category. cbv zeta.
      split; [reflexivity | apply landing_cases]. }
    split; [| reflexivity].
    intros mv [<- | []]. reflexivity.
Qed.

Lemma files_soft (E : Env) (files : list Path) :
  soft_faults_only E ->
  forall w,
  exists w' rows moves,
    for_each files (process_file E) w = (Ok tt, w')
    /\ log_rows w' = log_rows w ++ rows
    /\ relocated w' = relocated w ++ moves
    /\ Forall2 (reports E) moves rows
    /\ (forall mv, In mv moves -> In (fst mv) files)
    /\ (moves_never_fail E -> map fst moves = files).
Proof.
  intros Hsoft. induction files as [| file_path files IH]; intros w.
  - exists w, [], []. rewrite !app_nil_r.
    repeat split; auto; try constructor.
  - destruct (process_file_soft file_path w Hsoft)
      as (w1 & rows1 & moves1 & Hp & Hl1 & Hr1 & Hf1 & Hin1 & Hall1).
    destruct (IH w1) as (w2 & rows2 & moves2 & Hloop & Hl2 & Hr2 & Hf2 & Hin2 & Hall2).
    exists w2, (rows1 ++ rows2), (moves1 ++ moves2).
    split; [simpl; rewrite (bind_ok _ _ w Hp); exact Hloop |].
    split; [rewrite Hl2, Hl1; symmetry; apply app_assoc |].
    split; [rewrite Hr2, Hr1; symmetry; apply app_assoc |].
    split; [now apply Forall2_app |].
    split.
    + intros mv Hin. apply in_app_or in Hin. destruct Hin as [Hin | Hin].
      * left. symmetry. now apply Hin1.
      * right. now apply Hin2.
    + intros Hnever. rewrite map_app, Hall1, Hall2 by assumption. reflexivity.
Qed.

Lemma process_downloads_soft (E : Env) (entries : list Path) (w : World) :
  soft_faults_only E ->
  iterdir E (DOWNLOADS E) = Ok entries ->
  exists w' rows moves,
    process_downloads E w = (Ok tt, w')
    /\ rows_since w w' = rows
    /\ moves_since w w' = moves
    /\ Forall2 (reports E) moves rows
    /\ (forall mv, In mv moves -> In (fst mv) (filter (is_file E) entries))
    /\ (moves_never_fail E -> map fst moves = filter (is_file E) entries)
    /\ last (stdout w') []
       = newline ++ lit "Done. Log saved to: " ++ path_str (LOG_FILE E).
Proof.
  intros Hsoft Hdir.
  set (w0 := snd (print (newline ++ lit "Scanning: " ++ path_str (DOWNLOADS E)) w)).
  destruct (@files_soft E (filter (is_file E) entries) Hsoft w0)
    as (w1 & rows & moves & Hloop & Hl & Hr & Hf & Hin & Hall).
  exists (snd (print (newline ++ lit "Done. Log saved to: " ++ path_str (LOG_FILE E)) w1)),
    rows, moves.
  split.
  { unfold process_downloads.
    rewrite (bind_ok _ _ w (a := tt) (w' := w0)) by reflexivity.
    unfold bind at 1. unfold call. rewrite Hdir.
    rewrite (bind_ok _ _ w0 (a := tt) (w' := w1)); [reflexivity |].
    rewrite loop_over_regular_files. exact Hloop. }
  split; [unfold rows_since; simpl; change (log_rows w) with (log_rows w0);
          unfold log_rows in *; simpl in *; rewrite Hl; apply skipn_length_app |].
  split; [unfold moves_since; simpl; change (relocated w) with (relocated w0);
          rewrite Hr; apply skipn_length_app |].
  split; [assumption |]. split; [assumption |]. split; [assumption |].
  simpl. apply last_last.
Qed.



(** X14. When, in addition, no move fails, every regular file of the
    listing is moved, in listing order, and the rows added to the log name
    exactly those files, in that order. *)
Theorem every_regular_file_is_moved_and_logged (E : Env) (entries : list Path)
  (w : World) :
  soft_faults_only E ->
  moves_never_fail E ->
  iterdir E (DOWNLOADS E) = Ok entries ->
  let w' := snd (process_downloads E w) in
  map fst (moves_since w w') = filter (is_file E) entries
  /\ map row_file_name (rows_since w w') = map name (filter (is_file E) entries)
  /\ List.length (rows_since w w') = List.length (filter (is_file E) entries).
Proof.
  intros Hsoft Hnever Hdir.
  destruct (process_downloads_soft w Hsoft Hdir)
    as (w1 & rows & moves & Hrun & Hrows & Hmoves & Hf & _ & Hall & _).
  cbv zeta. rewrite Hrun. cbn [snd]. rewrite Hrows, Hmoves.
  pose proof (reports_names Hf) as Hn. specialize (Hall Hnever).
  assert (Hnames : map row_file_name rows = map name (filter (is_file E) entries))
    by (rewrite Hn, <- Hall, map_map; reflexivity).
  split; [assumption |]. split; [assumption |].
  rewrite <- (length_map row_file_name), Hnames. apply length_map.
Qed.

Lemma every_regular_file_is_moved_and_logged_witness :
  let w' := snd (process_downloads Scenario.with_folder Sample.fresh) in
  map fst (moves_since Sample.fresh w') = [Sample.notes; Sample.archive]
  /\ map row_file_name (rows_since Sample.fresh w')
     = [lit "algebra_notes.txt"; lit "archive.zip"].
Proof.
  cbv zeta.
  destruct (@every_regular_file_is_moved_and_logged Scenario.with_folder
              [Sample.notes; Scenario.papers; Sample.archive] Sample.fresh)
    as (Hm & Hn & _).
  - split; intros; reflexivity.
  - intros w src target. reflexivity.
  - reflexivity.
  - split; [exact Hm | exact Hn].
Defined.

(** ** What deciding and logging never do *)

(** X15. Extracting the text of a file and choosing its category only
    print and ask the classifier: until the relocator is called, no file
    has been moved, the log is as it was and the clock has not been read;
    and extraction alone does not ask the classifier either. *)
Theorem deciding_changes_no_file (E : Env) (file_path : Path) (text : str) (w : World) :
  same_files w (snd (extract_text_from_file E file_path w))
  /\ same_calls w (snd (extract_text_from_file E file_path w))
  /\ same_files w (snd (choose_category E file_path text w))
  /\ same_files w (snd (categorise E file_path w)).
Proof.
  split; [apply quiet_extract_text |].
  split; [apply same_calls_extract_text |].
  split; [apply quiet_choose_category | apply quiet_categorise].
Qed.

(** X16. The script only ever appends to an existing audit log: after a
    start of the script, and after a run of the loop alone, the rows that
    were in the log are still there, in the same order and in front of the
    rows added, and a log that existed still exists. *)
Theorem log_is_append_only (E : Env) (w : World) :
  (exists added,
      log_rows (snd (main E w)) = log_rows w ++ added
      /\ (log_file w <> None ->
          log_file (snd (main E w)) = Some (log_rows w ++ added)))
  /\ (exists added,
        log_rows (snd (process_downloads E w)) = log_rows w ++ added
        /\ (log_file w <> None ->
            log_file (snd (process_downloads E w)) = Some (log_rows w ++ added))).
Proof.
  assert (Hrun : forall w0,
             exists added,
               log_rows (snd (process_downloads E w0)) = log_rows w0 ++ added
               /\ (log_file w0 <> None ->
                   log_file (snd (process_downloads E w0))
                   = Some (log_rows w0 ++ added))).
  { intros w0.
    destruct (process_downloads_logged E w0) as (rows & moves & Hl & _ & _ & Hkeep).
    exists rows. split; [assumption |]. intros Hex. specialize (Hkeep Hex).
    unfold log_rows in Hl at 1.
    destruct (log_file (snd (process_downloads E w0))); [congruence | congruence]. }
  split; [| apply Hrun].
  rewrite main_run. cbv zeta. rewrite init_log_file_run. cbn [log_file with_stdout].
  destruct (log_file w) as [old |] eqn:Hw.
  - assert (Hold : log_rows w = old) by (unfold log_rows; now rewrite Hw).
    match goal with
    | |- context [process_downloads E ?w0] => destruct (Hrun w0) as (added & Hl & Hk)
    end.
    assert (Hsame : forall out, log_rows (with_stdout w out) = old)
      by (intros out; unfold log_rows; cbn [log_file with_stdout]; now rewrite Hw).
    rewrite Hsame in Hl, Hk. cbn [log_file with_stdout] in Hk.
    exists added. rewrite Hold. split; [exact Hl |].
    intros _. apply Hk. congruence.
  - assert (Hold : log_rows w = []) by (unfold log_rows; now rewrite Hw).
    rewrite Hold. cbn [app].
    eexists. split; [reflexivity |]. intros H. congruence.
Qed.

Lemma log_is_append_only_witness :
  let kept := [HEADER; [lit "2024-04-30T09:00:00"; lit "old.txt"; lit "Math";
                        lit "/home/u/Documents/Math/old.txt"]] in
  let w := mkWorld [] [] (Some kept) [] 0 in
  exists added, log_file (snd (main Sample.calm w)) = Some (kept ++ added).
Proof.
  cbv zeta.
  destruct (log_is_append_only Sample.calm
              (mkWorld [] [] (Some [HEADER; [lit "2024-04-30T09:00:00"; lit "old.txt";
                                             lit "Math";
                                             lit "/home/u/Documents/Math/old.txt"]])
                 [] 0))
    as ((added & _ & Hkeep) & _).
  exists added. apply Hkeep. discriminate.
Defined.

Lemma only_regular_files_are_processed_witness :
  loop_body Scenario.with_folder Scenario.papers Sample.fresh = (Ok tt, Sample.fresh)
  /\ for_each [Sample.notes; Scenario.papers; Sample.archive]
       (loop_body Scenario.with_folder) Sample.fresh
     = for_each [Sample.notes; Sample.archive]
         (process_file Scenario.with_folder) Sample.fresh.
Proof.
  destruct (only_regular_files_are_processed Scenario.with_folder
              [Sample.notes; Scenario.papers; Sample.archive] Sample.fresh)
    as (Hloop & Hskip).
  split; [apply Hskip; reflexivity | exact Hloop].
Defined.
